(** * vault-warden: unseal reconciliation and audit-log alerting

    A shallow embedding of [main.go], lines 1-301 (the version of the tool
    that validates its configuration and returns errors: [readConfig],
    [sendDiscord], [runUnlock], [processAuditLine], [runAudit], [main]),
    together with the properties of its two commands.

    Go values are modelled as follows.
    - [string] is a byte string ([String.string]); literals hold the UTF-8
      bytes of the source literals.
    - [int] is [Z]; [%d] prints it in decimal ([itoa]).
    - an [error] value is the text of its [Error()] method, [nil] is [None];
      a [(T, error)] pair is a [result T].
    - calls into the Go standard library and third-party packages whose result
      depends on the outside world (HTTP, clock, file system) or on a codec
      (encoding/json, yaml) are fields of a [Platform]; every theorem holds
      for every platform.
    - the effects of a run (standard output, HTTP requests, webhook posts) are
      appended to a chronological trace carried by the [World]. *)

From Stdlib Require Import String Ascii List ZArith Bool DecimalString.
Import ListNotations.

#[local] Open Scope string_scope.
#[local] Open Scope Z_scope.

(** ** Go-level helpers *)

(** The line feed written by [Println] and by ["\n"] in format strings. *)
Definition nl : string := String (ascii_of_nat 10) EmptyString.

(** [%d] of an [int]. *)
Definition itoa (z : Z) : string := NilZero.string_of_int (Z.to_int z).

(** [strings.HasPrefix s p]. *)
Fixpoint HasPrefix (s p : string) : bool :=
  match p, s with
  | EmptyString, _ => true
  | String _ _, EmptyString => false
  | String b p', String a s' => Ascii.eqb a b && HasPrefix s' p'
  end.

(** [strings.Contains s substr]: [substr] occurs in [s] as a run of
    consecutive bytes; no case folding, no normalisation. *)
Fixpoint Contains (s substr : string) : bool :=
  HasPrefix s substr ||
  match s with
  | EmptyString => false
  | String _ s' => Contains s' substr
  end.

(** The comparison of [s] with the empty string. *)
Definition isEmpty (s : string) : bool :=
  match s with EmptyString => true | String _ _ => false end.

(** A Go [(T, error)] return value. *)
Inductive result (A : Type) : Type :=
| Ok (a : A)
| Err (msg : string).
Arguments Ok {A} a.
Arguments Err {A} msg.

(** ** Shared configuration and structs (main.go, lines 22-55) *)

Record VaultConfig := {
  Address : string;
  UnsealKeys : list string;
  WebhookURL : string;
  AuditLog : string
}.

Record VaultStatus := {
  Sealed : bool;
  Initialized : bool;
  Progress : Z;
  Threshold : Z
}.

Record AuditRequest := { Path : string }.
Record AuditAuth := { DisplayName : string }.

Record AuditEntry := {
  Request : AuditRequest;
  Auth : AuditAuth;
  Error : string
}.

Record DiscordEmbed := {
  Title : string;
  Description : string;
  Color : Z;
  Timestamp : string
}.

Record DiscordPayload := { Embeds : list DiscordEmbed }.

(** ** The outside world *)

(** An [*http.Request] as built by [http.NewRequest method url body]. *)
Record HttpRequest := {
  Method : string;
  URL : string;
  Body : option string
}.

(** An [*http.Response]: its status code and what [io.ReadAll(resp.Body)]
    returns, the bytes read and the read error if any. *)
Record HttpResponse := {
  StatusCode : Z;
  ReadAll : string * option string
}.

(** What a run does to the outside, in the order it happens. [Notify] marks
    a call of [sendDiscord] with its arguments: the notification handed to
    the notifier, whether or not its delivery succeeds. *)
Inductive Event :=
| Stdout (text : string)
| Notify (url title desc : string) (color : Z)
| Post (url contentType data : string)
| Do (req : HttpRequest).

(** What the audit loop's [select] wakes up with: a line of the tailed file,
    a read error reported by the tail, or a termination signal. *)
Inductive Wakeup :=
| Line (text : string)
| LineErr (err : string)
| Signal.

(** Library calls. [Vault], [Hook] and [Clock] are the states of the secrets
    server, of the webhook endpoint and of the wall clock. *)
Record Platform (Vault Hook Clock : Type) := {
  (** [json.Marshal(map[string]string{"key": key})] *)
  json_Marshal_key : string -> result string;
  (** [json.Marshal(payload)] *)
  json_Marshal_payload : DiscordPayload -> result string;
  (** [json.Unmarshal(body, &status)] on a zero [VaultStatus] *)
  json_Unmarshal_status : string -> result VaultStatus;
  (** [json.Unmarshal([]byte(line), &entry)] on a zero [AuditEntry] *)
  json_Unmarshal_entry : string -> result AuditEntry;
  (** the URL check of [http.NewRequest]: its error, if the URL is refused *)
  url_Parse : string -> option string;
  (** [client.Do(req)] against the secrets server *)
  client_Do : HttpRequest -> Vault -> result HttpResponse * Vault;
  (** [client.Post(url, contentType, body)] against the webhook *)
  client_Post : string -> string -> string -> Hook -> result HttpResponse * Hook;
  (** [time.Now().Format(time.RFC3339)] *)
  time_Now : Clock -> string * Clock;
  (** [os.Open(path)]: the file's content *)
  os_Open : string -> result string;
  (** [yaml.NewDecoder(file).Decode(&cfg)] on a zero [VaultConfig] *)
  yaml_Decode : string -> result VaultConfig;
  (** [os.Stat(path)]: its error, if any *)
  os_Stat : string -> option string;
  (** [tail.TailFile(path, config)]: its error, if any *)
  tail_TailFile : string -> option string
}.

Arguments json_Marshal_key {Vault Hook Clock} _ _.
Arguments json_Marshal_payload {Vault Hook Clock} _ _.
Arguments json_Unmarshal_status {Vault Hook Clock} _ _.
Arguments json_Unmarshal_entry {Vault Hook Clock} _ _.
Arguments url_Parse {Vault Hook Clock} _ _.
Arguments client_Do {Vault Hook Clock} _ _ _.
Arguments client_Post {Vault Hook Clock} _ _ _ _ _.
Arguments time_Now {Vault Hook Clock} _ _.
Arguments os_Open {Vault Hook Clock} _ _.
Arguments yaml_Decode {Vault Hook Clock} _ _.
Arguments os_Stat {Vault Hook Clock} _ _.
Arguments tail_TailFile {Vault Hook Clock} _ _.

Record World (Vault Hook Clock : Type) := {
  vault : Vault;
  hook : Hook;
  clock : Clock;
  trace : list Event
}.

Arguments vault {Vault Hook Clock} _.
Arguments hook {Vault Hook Clock} _.
Arguments clock {Vault Hook Clock} _.
Arguments trace {Vault Hook Clock} _.

(** Embed colours used by the source. *)
Definition colorAlert : Z := 0xe74c3c.
Definition colorUnsealed : Z := 0x2ecc71.
Definition colorActive : Z := 0x3498db.
Definition colorStopped : Z := 0x95a5a6.

(** Titles and fixed descriptions used by the source. *)
Definition titleAlert : string := "🚨 SECURITY ALERT: Privileged Access".
Definition titleUnsealed : string := "🔓 Vault Unsealed".
Definition descUnsealed : string := "Vault has been successfully unsealed.".

Section Warden.

Context {Vault Hook Clock : Type}.
Variable P : Platform Vault Hook Clock.

(** A computation that reads and changes the world. *)
Definition M (A : Type) : Type :=
  World Vault Hook Clock -> A * World Vault Hook Clock.

Definition ret {A : Type} (a : A) : M A := fun w => (a, w).

Definition bind {A B : Type} (c : M A) (k : A -> M B) : M B := fun w =>
  let (a, w') := c w in k a w'.

#[local] Notation "x <- c ;; k" := (bind c (fun x => k))
  (at level 61, c at next level, right associativity).
#[local] Notation "c ;; k" := (bind c (fun _ => k))
  (at level 61, right associativity).

Definition emit (e : Event) : M unit := fun w =>
  (tt, {| vault := vault w; hook := hook w; clock := clock w;
          trace := trace w ++ [e] |}).

(** [fmt.Printf] with the text already formatted, and [fmt.Println]. *)
Definition Printf (text : string) : M unit := emit (Stdout text).
Definition Println (text : string) : M unit := emit (Stdout (text ++ nl)).

Definition timeNow : M string := fun w =>
  let (t, c) := time_Now P (clock w) in
  (t, {| vault := vault w; hook := hook w; clock := c; trace := trace w |}).

Definition clientDo (req : HttpRequest) : M (result HttpResponse) := fun w =>
  let (r, v) := client_Do P req (vault w) in
  (r, {| vault := v; hook := hook w; clock := clock w;
         trace := trace w ++ [Do req] |}).

Definition clientPost (url contentType data : string)
  : M (result HttpResponse) := fun w =>
  let (r, h) := client_Post P url contentType data (hook w) in
  (r, {| vault := vault w; hook := h; clock := clock w;
         trace := trace w ++ [Post url contentType data] |}).

(** [http.NewRequest]: the methods used here are valid, so only the URL
    can be refused. *)
Definition http_NewRequest (method url : string) (body : option string)
  : result HttpRequest :=
  match url_Parse P url with
  | Some err => Err err
  | None => Ok {| Method := method; URL := url; Body := body |}
  end.


(** ** Helper functions (main.go, lines 59-116) *)

Definition readConfig (path : string) : result VaultConfig :=
  match os_Open P path with
  | Err err => Err ("open config: " ++ err)
  | Ok file =>
    match yaml_Decode P file with
    | Err err => Err ("decode config: " ++ err)
    | Ok cfg =>
      (* Validate required fields *)
      if isEmpty (Address cfg) then Err "address is required"
      else if (length (UnsealKeys cfg) =? 0)%nat then
        Err "unseal_keys is required"
      else if isEmpty (WebhookURL cfg) then Err "webhook_url is required"
      else Ok cfg
    end
  end.

Definition sendDiscord (url title desc : string) (color : Z)
  : M (option string) :=
  (emit (Notify url title desc color) ;;
   now <- timeNow ;;
   let payload :=
     {| Embeds := [ {| Title := title; Description := desc;
                       Color := color; Timestamp := now |} ] |} in
   match json_Marshal_payload P payload with
   | Err err => ret (Some ("marshal payload: " ++ err))
   | Ok data =>
     r <- clientPost url "application/json" data ;;
     match r with
     | Err err =>
       (* Log but don't fail - Discord being down shouldn't break monitoring *)
       Printf ("⚠️  Discord webhook failed: " ++ err ++ nl) ;;
       ret (Some err)
     | Ok resp =>
       if negb (StatusCode resp =? 204) && negb (StatusCode resp =? 200) then
         let (body, _) := ReadAll resp in
         Printf ("⚠️  Discord returned " ++ itoa (StatusCode resp) ++ ": "
                 ++ body ++ nl) ;;
         ret (Some ("discord returned status " ++ itoa (StatusCode resp)))
       else ret None
     end
   end).

(** ** Command: unlock (main.go, lines 120-194) *)

(** The [for i, key := range cfg.UnsealKeys] loop with what follows it,
    started at index [i] on the keys not yet visited. *)
Fixpoint unsealLoop (cfg : VaultConfig) (i : nat) (keys : list string)
  : M (option string) :=
  match keys with
  | [] =>
    ret (Some ("vault still sealed after providing all "
               ++ itoa (Z.of_nat (length (UnsealKeys cfg))) ++ " keys"))
  | key :: rest =>
    match json_Marshal_key P key with
    | Err err =>
      ret (Some ("marshal unseal key " ++ itoa (Z.of_nat i + 1) ++ ": " ++ err))
    | Ok reqBody =>
      match http_NewRequest "PUT" (Address cfg ++ "/v1/sys/unseal")
                            (Some reqBody) with
      | Err err =>
        ret (Some ("create unseal request " ++ itoa (Z.of_nat i + 1) ++ ": "
                   ++ err))
      | Ok req =>
        (r <- clientDo req ;;
         match r with
         | Err err =>
           ret (Some ("unseal request " ++ itoa (Z.of_nat i + 1)
                      ++ " failed: " ++ err))
         | Ok resp =>
           match ReadAll resp with
           | (_, Some err) =>
             ret (Some ("read unseal response " ++ itoa (Z.of_nat i + 1)
                        ++ ": " ++ err))
           | (body, None) =>
             match json_Unmarshal_status P body with
             | Err err =>
               ret (Some ("parse unseal response " ++ itoa (Z.of_nat i + 1)
                          ++ ": " ++ err))
             | Ok unsealStatus =>
               if negb (Sealed unsealStatus) then
                 Println "✓ Vault successfully unsealed" ;;
                 (* Send notification *)
                 _ <- sendDiscord (WebhookURL cfg) titleUnsealed descUnsealed
                                  colorUnsealed ;;
                 ret None
               else
                 Printf ("  Progress: " ++ itoa (Progress unsealStatus) ++ "/"
                         ++ itoa (Threshold unsealStatus) ++ " keys" ++ nl) ;;
                 unsealLoop cfg (S i) rest
             end
           end
         end)
      end
    end
  end.

Definition runUnlock (cfg : VaultConfig) : M (option string) :=
  (* Check current seal status *)
  match http_NewRequest "GET" (Address cfg ++ "/v1/sys/health") None with
  | Err err => ret (Some ("create health request: " ++ err))
  | Ok req =>
    (r <- clientDo req ;;
     match r with
     | Err err => ret (Some ("health check failed: " ++ err))
     | Ok resp =>
       match ReadAll resp with
       | (_, Some err) => ret (Some ("read health response: " ++ err))
       | (body, None) =>
         match json_Unmarshal_status P body with
         | Err err => ret (Some ("parse health response: " ++ err))
         | Ok status =>
           if negb (Sealed status) then
             Println "✓ Vault is already unsealed. Skipping." ;;
             ret None
           else
             Printf ("🔒 Vault is sealed. Attempting to unseal with "
                     ++ itoa (Z.of_nat (length (UnsealKeys cfg)))
                     ++ " keys..." ++ nl) ;;
             (* Send unseal keys *)
             unsealLoop cfg 0 (UnsealKeys cfg)
         end
       end
     end)
  end.

(** ** Command: audit (main.go, lines 198-264) *)

Definition processAuditLine (line webhookURL : string) : M unit :=
  match json_Unmarshal_entry P line with
  | Err _ => ret tt
  | Ok entry =>
    ((* Alert on privileged access *)
     (if Contains (Path (Request entry)) "sign/root"
         || Contains (Path (Request entry)) "database/creds/admin"
      then
        let desc := "**User:** " ++ DisplayName (Auth entry) ++ nl
                    ++ "**Resource:** `" ++ Path (Request entry) ++ "`" in
        _ <- sendDiscord webhookURL titleAlert desc colorAlert ;;
        Printf ("🚨 Privileged access: " ++ DisplayName (Auth entry) ++ " -> "
                ++ Path (Request entry) ++ nl)
      else ret tt) ;;
     (* Alert on unseal events *)
     (if Contains (Path (Request entry)) "sys/unseal"
         && isEmpty (Error entry)
      then
        _ <- sendDiscord webhookURL titleUnsealed descUnsealed colorUnsealed ;;
        Println "🔓 Vault unseal detected"
      else ret tt))
  end.

(** The [for { select { ... } }] loop of [runAudit] run on the wake-ups it
    receives, in order. [None]: the wake-ups are used up and the loop is
    blocked in [select]; [Some e]: [runAudit] has returned [e]. *)
Fixpoint auditLoop (cfg : VaultConfig) (wakeups : list Wakeup)
  : M (option (option string)) :=
  match wakeups with
  | [] => ret None
  | Line text :: rest =>
    (processAuditLine text (WebhookURL cfg) ;; auditLoop cfg rest)
  | LineErr err :: rest =>
    (Printf ("⚠️  Error reading line: " ++ err ++ nl) ;;
     auditLoop cfg rest)
  | Signal :: _ =>
    (Println (nl ++ "🛑 Shutting down gracefully...") ;;
     _ <- sendDiscord (WebhookURL cfg) "🛑 Vault Warden Stopped"
                      "Audit monitoring has been stopped." colorStopped ;;
     ret (Some None))
  end.

Definition runAudit (cfg : VaultConfig) (wakeups : list Wakeup)
  : M (option (option string)) :=
  (Println "🛡️  Vault Warden Active. Monitoring logs..." ;;
   _ <- sendDiscord (WebhookURL cfg) "🛡️ Vault Warden Active"
                    "Monitoring audit logs for Starnix cluster..."
                    colorActive ;;
   (* Verify audit log exists *)
   match os_Stat P (AuditLog cfg) with
   | Some err => ret (Some (Some ("audit log not accessible: " ++ err)))
   | None =>
     match tail_TailFile P (AuditLog cfg) with
     | Some err => ret (Some (Some ("tail audit log: " ++ err)))
     | None => auditLoop cfg wakeups
     end
   end).

(** ** Main entrypoint (main.go, lines 268-301)

    [configPath] and [args] are the value of the [-config] flag and
    [flag.Args()] after [flag.Parse()]. The result is the exit status of the
    process, [None] while the audit loop is still waiting. *)
Definition main (configPath : string) (args : list string)
  (wakeups : list Wakeup) : M (option Z) :=
  match args with
  | [] =>
    (Println "Usage: vault-warden [-config path] [unlock | audit]" ;;
     Println (nl ++ "Commands:") ;;
     Println "  unlock  - Unseal Vault if sealed" ;;
     Println "  audit   - Monitor audit logs for privileged access" ;;
     ret (Some 1))
  | arg0 :: _ =>
    match readConfig configPath with
    | Err err =>
      (Printf ("❌ Config error: " ++ err ++ nl) ;; ret (Some 1))
    | Ok cfg =>
      let finish (cmdErr : option string) : M (option Z) :=
        match cmdErr with
        | Some err => (Printf ("❌ Error: " ++ err ++ nl) ;; ret (Some 1))
        | None => ret (Some 0)
        end in
      if String.eqb arg0 "unlock" then
        (cmdErr <- runUnlock cfg ;; finish cmdErr)
      else if String.eqb arg0 "audit" then
        (r <- runAudit cfg wakeups ;;
         match r with
         | None => ret None
         | Some cmdErr => finish cmdErr
         end)
      else
        (Printf ("❌ Unknown command: " ++ arg0 ++ nl) ;; ret (Some 1))
    end
  end.

End Warden.

(** ** Vocabulary of the properties *)

(** The HTTP requests sent to the secrets server, in order. *)
Definition requests (t : list Event) : list HttpRequest :=
  flat_map (fun e => match e with Do req => [req] | _ => [] end) t.

Definition isNotify (e : Event) : bool :=
  match e with Notify _ _ _ _ => true | _ => false end.

(** The notifications handed to the notifier, in order. *)
Definition notifications (t : list Event) : list Event := filter isNotify t.

(** The source has no severity type: the level of a notification is carried
    by the colour of its embed. Red is the colour of the security alert
    (Critical); green, blue and grey are the colours of the status messages
    (Info); no colour stands for Warning. *)
Inductive Severity := Info | Warning | Critical.

Definition severityOfColor (color : Z) : option Severity :=
  if color =? colorAlert then Some Critical
  else if (color =? colorUnsealed) || (color =? colorActive)
          || (color =? colorStopped) then Some Info
  else None.

Definition severity (e : Event) : option Severity :=
  match e with
  | Notify _ _ _ color => severityOfColor color
  | _ => None
  end.

Definition isCritical (e : Event) : bool :=
  match severity e with Some Critical => true | _ => false end.

(** The lines the notifier writes to standard output when a delivery fails
    (main.go, lines 104 and 111), and a trace without them. *)
Definition isDeliveryLog (e : Event) : bool :=
  match e with
  | Stdout text => HasPrefix text "⚠️  Discord "
  | _ => false
  end.

Definition withoutDeliveryLog (t : list Event) : list Event :=
  filter (fun e => negb (isDeliveryLog e)) t.

(** What the delivery of a notification leaves in the trace after its
    [Notify] mark: the post and the notifier's own log line. *)
Definition isDelivery (e : Event) : bool :=
  match e with
  | Post _ _ _ => true
  | Stdout _ => isDeliveryLog e
  | _ => false
  end.

(** How one exchange with the secrets server ends, seen from [runUnlock]. *)
Inductive Reply :=
| MarshalError (err : string)
| RequestError (err : string)
| TransportError (err : string)
| UnreadableBody (err : string)
| UnparseableBody (err : string)
| Status (st : VaultStatus).

Definition healthRequest (cfg : VaultConfig) : HttpRequest :=
  {| Method := "GET"; URL := Address cfg ++ "/v1/sys/health"; Body := None |}.

Definition unsealRequest (cfg : VaultConfig) (reqBody : string) : HttpRequest :=
  {| Method := "PUT"; URL := Address cfg ++ "/v1/sys/unseal";
     Body := Some reqBody |}.

Section Exchanges.

Context {Vault Hook Clock : Type}.
Variable P : Platform Vault Hook Clock.

(** The server's answer to [req] in state [v], read and decoded. *)
Definition roundTrip (req : HttpRequest) (v : Vault) : Reply * Vault :=
  let (r, v') := client_Do P req v in
  (match r with
   | Err err => TransportError err
   | Ok resp =>
     match ReadAll resp with
     | (_, Some err) => UnreadableBody err
     | (body, None) =>
       match json_Unmarshal_status P body with
       | Err err => UnparseableBody err
       | Ok st => Status st
       end
     end
   end, v').

(** The health check against a server in state [v]. *)
Definition checkHealth (cfg : VaultConfig) (v : Vault) : Reply * Vault :=
  match url_Parse P (URL (healthRequest cfg)) with
  | Some err => (RequestError err, v)
  | None => roundTrip (healthRequest cfg) v
  end.

(** The submission of [key] to a server in state [v]. *)
Definition submitKey (cfg : VaultConfig) (key : string) (v : Vault)
  : Reply * Vault :=
  match json_Marshal_key P key with
  | Err err => (MarshalError err, v)
  | Ok reqBody =>
    match url_Parse P (URL (unsealRequest cfg reqBody)) with
    | Some err => (RequestError err, v)
    | None => roundTrip (unsealRequest cfg reqBody) v
    end
  end.

(** The answers of a server in state [v] to [keys] submitted one after
    another, and the state it is left in. *)
Fixpoint submitKeys (cfg : VaultConfig) (keys : list string) (v : Vault)
  : list Reply * Vault :=
  match keys with
  | [] => ([], v)
  | key :: rest =>
    let (r, v1) := submitKey cfg key v in
    let (rs, v2) := submitKeys cfg rest v1 in
    (r :: rs, v2)
  end.

(** The request that carries [key], when it can be built. *)
Definition requestFor (cfg : VaultConfig) (key : string) : list HttpRequest :=
  match json_Marshal_key P key with
  | Err _ => []
  | Ok reqBody =>
    match url_Parse P (URL (unsealRequest cfg reqBody)) with
    | Some _ => []
    | None => [unsealRequest cfg reqBody]
    end
  end.

Definition requestsFor (cfg : VaultConfig) (keys : list string)
  : list HttpRequest :=
  flat_map (requestFor cfg) keys.

End Exchanges.

(** A status that still has [sealed=true]. *)
Definition stillSealed (r : Reply) : bool :=
  match r with Status st => Sealed st | _ => false end.

(** A round trip that was started and failed: transport error, unreadable
    body or unparseable response. *)
Definition roundTripFailed (r : Reply) : bool :=
  match r with
  | TransportError _ | UnreadableBody _ | UnparseableBody _ => true
  | _ => false
  end.

(** The error [runUnlock] returns when the exchange for the key at index
    [i] ends with [r] (main.go, lines 158-179). *)
Definition unsealError (i : nat) (r : Reply) : option string :=
  match r with
  | MarshalError err =>
    Some ("marshal unseal key " ++ itoa (Z.of_nat i + 1) ++ ": " ++ err)
  | RequestError err =>
    Some ("create unseal request " ++ itoa (Z.of_nat i + 1) ++ ": " ++ err)
  | TransportError err =>
    Some ("unseal request " ++ itoa (Z.of_nat i + 1) ++ " failed: " ++ err)
  | UnreadableBody err =>
    Some ("read unseal response " ++ itoa (Z.of_nat i + 1) ++ ": " ++ err)
  | UnparseableBody err =>
    Some ("parse unseal response " ++ itoa (Z.of_nat i + 1) ++ ": " ++ err)
  | Status _ => None
  end.

(** The error returned once every key has been tried (main.go, line 193). *)
Definition stillSealedError (cfg : VaultConfig) : string :=
  "vault still sealed after providing all "
  ++ itoa (Z.of_nat (length (UnsealKeys cfg))) ++ " keys".

(** The notification of a successful unseal (main.go, lines 185-186 and
    215-216). *)
Definition unsealedNotice (url : string) : Event :=
  Notify url titleUnsealed descUnsealed colorUnsealed.

(** The security alert for [entry] (main.go, lines 207-209). *)
Definition alertNotice (url : string) (entry : AuditEntry) : Event :=
  Notify url titleAlert
         ("**User:** " ++ DisplayName (Auth entry) ++ nl
          ++ "**Resource:** `" ++ Path (Request entry) ++ "`")
         colorAlert.

(** Two worlds that differ at most in the webhook endpoint and in the
    notifier's delivery log. *)
Definition agree {Vault Hook Clock : Type} (w1 w2 : World Vault Hook Clock)
  : Prop :=
  vault w1 = vault w2 /\ clock w1 = clock w2 /\
  withoutDeliveryLog (trace w1) = withoutDeliveryLog (trace w2).

(** [substr] occurs in [s]: the substring relation on raw bytes, with no
    case folding and no normalisation ([Contains_spec] relates it to
    [Contains]). *)
Definition Substring (substr s : string) : Prop :=
  exists a b, s = a ++ substr ++ b.

Definition isInfo (e : Event) : bool :=
  match severity e with Some Info => true | _ => false end.

(** What a computation adds to the trace when it is run in [w], and what
    it returns. *)
Definition events {Vault Hook Clock A : Type}
  (m : World Vault Hook Clock -> A * World Vault Hook Clock)
  (w : World Vault Hook Clock) : list Event :=
  skipn (length (trace w)) (trace (snd (m w))).

Definition outcome {Vault Hook Clock A : Type}
  (m : World Vault Hook Clock -> A * World Vault Hook Clock)
  (w : World Vault Hook Clock) : A :=
  fst (m w).

(** The classifier of the specification (section 4.2), written from its two
    rules: the notifications a record gives rise to, in rule order. It is
    compared with [processAuditLine] in [processAuditLine_classify]. *)
Definition classify (url : string) (entry : AuditEntry) : list Event :=
  (if Contains (Path (Request entry)) "sign/root"
      || Contains (Path (Request entry)) "database/creds/admin"
   then [alertNotice url entry] else [])
  ++
  (if Contains (Path (Request entry)) "sys/unseal" && isEmpty (Error entry)
   then [unsealedNotice url] else []).

Definition isStdout (e : Event) : bool :=
  match e with Stdout _ => true | _ => false end.

(** [w] with the webhook endpoint in state [h]. *)
Definition withHook {Vault Hook Clock : Type} (w : World Vault Hook Clock)
  (h : Hook) : World Vault Hook Clock :=
  {| vault := vault w; hook := h; clock := clock w; trace := trace w |}.

(** A computation whose result and effects, the delivery log apart, do not
    depend on the webhook endpoint; and one whose effects do not, whatever
    becomes of its result. *)
Definition respects {Vault Hook Clock A : Type}
  (m : World Vault Hook Clock -> A * World Vault Hook Clock) : Prop :=
  forall w1 w2, agree w1 w2 ->
    fst (m w1) = fst (m w2) /\ agree (snd (m w1)) (snd (m w2)).

Definition preserves {Vault Hook Clock A : Type}
  (m : World Vault Hook Clock -> A * World Vault Hook Clock) : Prop :=
  forall w1 w2, agree w1 w2 -> agree (snd (m w1)) (snd (m w2)).

(** ** Vocabulary of the further properties *)

Definition isPost (e : Event) : bool :=
  match e with Post _ _ _ => true | _ => false end.

(** The posts made to the webhook, in order. *)
Definition posts (t : list Event) : list Event := filter isPost t.

(** The start-up and shutdown notifications of the monitor (main.go, lines
    223-224 and 259-260). *)
Definition activeNotice (url : string) : Event :=
  Notify url "🛡️ Vault Warden Active"
         "Monitoring audit logs for Starnix cluster..." colorActive.

Definition stoppedNotice (url : string) : Event :=
  Notify url "🛑 Vault Warden Stopped" "Audit monitoring has been stopped."
         colorStopped.

(** The error [runUnlock] returns when the health check ends with [r]
    (main.go, lines 126-145). *)
Definition healthError (r : Reply) : option string :=
  match r with
  | MarshalError err => Some err
  | RequestError err => Some ("create health request: " ++ err)
  | TransportError err => Some ("health check failed: " ++ err)
  | UnreadableBody err => Some ("read health response: " ++ err)
  | UnparseableBody err => Some ("parse health response: " ++ err)
  | Status _ => None
  end.

(** An exchange that was not started: the request could not be built. *)
Definition notSent (r : Reply) : bool :=
  match r with
  | MarshalError _ | RequestError _ => true
  | _ => false
  end.

(** An HTTP exchange that goes where [cfg] says: a GET of the health
    endpoint or a PUT to the unseal endpoint of [Address], a JSON post to
    [WebhookURL]; a notification handed over for [WebhookURL]. *)
Definition ToConfigured (cfg : VaultConfig) (e : Event) : Prop :=
  match e with
  | Stdout _ => True
  | Notify url _ _ _ => url = WebhookURL cfg
  | Post url contentType _ =>
    url = WebhookURL cfg /\ contentType = "application/json"
  | Do req =>
    (Method req = "GET" /\ URL req = Address cfg ++ "/v1/sys/health"
     /\ Body req = None)
    \/ (Method req = "PUT" /\ URL req = Address cfg ++ "/v1/sys/unseal"
        /\ Body req <> None)
  end.

(** Nothing is sent to the secrets server. *)
Definition NotDo (e : Event) : Prop :=
  match e with Do _ => False | _ => True end.

(** Every event a computation adds to the trace satisfies [Q]. *)
Definition emits {Vault Hook Clock A : Type} (Q : Event -> Prop)
  (m : World Vault Hook Clock -> A * World Vault Hook Clock) : Prop :=
  forall w, exists evs,
    trace (snd (m w)) = (trace w ++ evs)%list /\ Forall Q evs.

(** A computation that leaves the secrets server as it is. *)
Definition keepsVault {Vault Hook Clock A : Type}
  (m : World Vault Hook Clock -> A * World Vault Hook Clock) : Prop :=
  forall w, vault (snd (m w)) = vault w.

Definition isSignal (wk : Wakeup) : bool :=
  match wk with Signal => true | _ => false end.

(** The wake-ups before the first signal. *)
Fixpoint untilSignal (wakeups : list Wakeup) : list Wakeup :=
  match wakeups with
  | [] => []
  | Signal :: _ => []
  | wk :: rest => wk :: untilSignal rest
  end.

(** ** The earlier revision (main.go, lines 302-475)

    The same tool before it validated its configuration and returned
    errors: every error but a failed health check and a failed open is
    dropped. *)
Module Legacy.

(** [VaultStatus] of this revision. *)
Record VaultStatus := {
  Sealed : bool;
  Initialized : bool
}.

(** How a call ends: it returns, or it panics (a nil pointer is
    dereferenced). *)
Inductive Completion := Returned | Panicked.

(** What [reader.ReadString] returns: the bytes read and the error, if the
    delimiter was not reached. *)
Definition Read : Type := string * option string.

Section Code.

Context {Vault Hook Clock : Type}.
Variable P : Platform Vault Hook Clock.

(** What [json.Unmarshal(body, &status)] leaves in a zero [VaultStatus] of
    this revision; its error is dropped by the caller. *)
Variable json_Unmarshal_status : string -> VaultStatus.

#[local] Notation "x <- c ;; k" := (bind c (fun x => k))
  (at level 61, c at next level, right associativity).
#[local] Notation "c ;; k" := (bind c (fun _ => k))
  (at level 61, right associativity).

(** Lines 356-367. *)
Definition readConfig (path : string) : result VaultConfig :=
  match os_Open P path with
  | Err err => Err err
  | Ok file =>
    match yaml_Decode P file with
    | Err err => Err err
    | Ok cfg => Ok cfg
    end
  end.

(** Lines 369-380. The marshalling error is dropped, which leaves [data]
    nil, and so is the result of [http.Post] (the post through the default
    client). *)
Definition sendDiscord (url title desc : string) (color : Z) : M unit :=
  emit (Notify url title desc color) ;;
  now <- timeNow P ;;
  let payload :=
    {| Embeds := [ {| Title := title; Description := desc;
                      Color := color; Timestamp := now |} ] |} in
  let data := match json_Marshal_payload P payload with
              | Ok data => data
              | Err _ => EmptyString
              end in
  _ <- clientPost P url "application/json" data ;;
  ret tt.

(** The [for _, key := range cfg.UnsealKeys] loop, lines 404-408. When
    [http.NewRequest] fails, [req] is nil and [client.Do(req)] dereferences
    it. *)
Fixpoint sendKeys (cfg : VaultConfig) (keys : list string) : M Completion :=
  match keys with
  | [] => ret Returned
  | key :: rest =>
    let reqBody := match json_Marshal_key P key with
                   | Ok reqBody => reqBody
                   | Err _ => EmptyString
                   end in
    match http_NewRequest P "PUT" (Address cfg ++ "/v1/sys/unseal")
                          (Some reqBody) with
    | Err _ => ret Panicked
    | Ok req => _ <- clientDo P req ;; sendKeys cfg rest
    end
  end.

(** Lines 384-409. [client.Get] builds the request and sends it. *)
Definition runUnlock (cfg : VaultConfig) : M Completion :=
  let get : M (result HttpResponse) :=
    match http_NewRequest P "GET" (Address cfg ++ "/v1/sys/health") None with
    | Err err => ret (Err err)
    | Ok req => clientDo P req
    end in
  r <- get ;;
  match r with
  | Err err => Printf ("Health check failed: " ++ err ++ nl) ;; ret Returned
  | Ok resp =>
    let (body, _) := ReadAll resp in
    let status := json_Unmarshal_status body in
    if negb (Sealed status) then
      Println "Vault is already unsealed. Skipping." ;; ret Returned
    else
      Println "Vault is sealed. Sending keys..." ;;
      sendKeys cfg (UnsealKeys cfg)
  end.

(** The [for] loop of [runAudit], lines 426-446, run on what
    [reader.ReadString] returns, in order; it ends when the reads are used
    up, the loop itself never does. After a failed read the loop sleeps a
    second and goes on: what was read is dropped. *)
Fixpoint auditLoop (cfg : VaultConfig) (reads : list Read) : M unit :=
  match reads with
  | [] => ret tt
  | (_, Some _) :: rest => auditLoop cfg rest
  | (line, None) :: rest =>
    match json_Unmarshal_entry P line with
    | Err _ => auditLoop cfg rest
    | Ok entry =>
      (if Contains (Path (Request entry)) "sign/root"
          || Contains (Path (Request entry)) "database/creds/admin"
       then
         let desc := "**User:** " ++ DisplayName (Auth entry) ++ nl
                     ++ "**Resource:** `" ++ Path (Request entry) ++ "`" in
         sendDiscord (WebhookURL cfg) "🚨 SECURITY ALERT: Privileged Access"
                     desc 0xe74c3c
       else ret tt) ;;
      (if Contains (Path (Request entry)) "sys/unseal"
          && isEmpty (Error entry)
       then
         sendDiscord (WebhookURL cfg) "🔓 Vault Unsealed"
                     "Vault has been successfully unsealed." 0x2ecc71
       else ret tt) ;;
      auditLoop cfg rest
    end
  end.

(** Lines 413-447. [true]: [runAudit] has returned (the log could not be
    opened); [false]: it is in its loop. *)
Definition runAudit (cfg : VaultConfig) (reads : list Read) : M bool :=
  Println "🛡️ Vault Warden Active. Monitoring logs..." ;;
  sendDiscord (WebhookURL cfg) "🛡️ Vault Warden Active"
              "Monitoring audit logs for Starnix cluster..." 0x3498db ;;
  match os_Open P (AuditLog cfg) with
  | Err err => Printf ("Error opening audit log: " ++ err ++ nl) ;; ret true
  | Ok _ => auditLoop cfg reads ;; ret false
  end.

(** Lines 451-475: the exit status of the process, [None] while the audit
    loop runs. A panic ends the process with status 2. *)
Definition main (configPath : string) (args : list string)
  (reads : list Read) : M (option Z) :=
  match args with
  | [] =>
    Println "Usage: vault-warden [-config path] [unlock | audit]" ;;
    ret (Some 1)
  | arg0 :: _ =>
    match readConfig configPath with
    | Err err => Printf ("Config error: " ++ err ++ nl) ;; ret (Some 1)
    | Ok cfg =>
      if String.eqb arg0 "unlock" then
        c <- runUnlock cfg ;;
        match c with
        | Returned => ret (Some 0)
        | Panicked => ret (Some 2)
        end
      else if String.eqb arg0 "audit" then
        returned <- runAudit cfg reads ;;
        if returned then ret (Some 0) else ret None
      else
        Printf ("Unknown command: " ++ arg0 ++ nl) ;; ret (Some 1)
    end
  end.

End Code.

End Legacy.

(** ** The first revision (unnamed/part_000): the monitor alone, with its
    webhook and its log path as constants *)
Module Original.

Definition WebhookURL : string :=
  "https://discord.com/api/webhooks/SOMEWEBHOOK".
Definition AuditLog : string := "/var/log/vault_audit.log".

Section Code.

Context {Vault Hook Clock : Type}.
Variable P : Platform Vault Hook Clock.

#[local] Notation "x <- c ;; k" := (bind c (fun x => k))
  (at level 61, c at next level, right associativity).
#[local] Notation "c ;; k" := (bind c (fun _ => k))
  (at level 61, right associativity).

(** Lines 41-52. *)
Definition sendDiscordEmbed (title desc : string) (color : Z) : M unit :=
  emit (Notify WebhookURL title desc color) ;;
  now <- timeNow P ;;
  let payload :=
    {| Embeds := [ {| Title := title; Description := desc;
                      Color := color; Timestamp := now |} ] |} in
  let data := match json_Marshal_payload P payload with
              | Ok data => data
              | Err _ => EmptyString
              end in
  _ <- clientPost P WebhookURL "application/json" data ;;
  ret tt.

(** The [for] loop of [main], lines 69-92, run on what
    [reader.ReadString] returns. *)
Fixpoint loop (reads : list Legacy.Read) : M unit :=
  match reads with
  | [] => ret tt
  | (_, Some _) :: rest => loop rest
  | (line, None) :: rest =>
    match json_Unmarshal_entry P line with
    | Err _ => loop rest
    | Ok entry =>
      (* LOGIC: Filter for Root SSH or DB Admin *)
      (if Contains (Path (Request entry)) "sign/root"
          || Contains (Path (Request entry)) "database/creds/admin"
       then
         let title := "🚨 SECURITY ALERT: Privileged Access" in
         let desc := "**User:** " ++ DisplayName (Auth entry) ++ nl
                     ++ "**Resource:** `" ++ Path (Request entry) ++ "`" in
         sendDiscordEmbed title desc 0xe74c3c
       else ret tt) ;;
      (* LOGIC: Filter for Unseal operations *)
      (if Contains (Path (Request entry)) "sys/unseal"
          && isEmpty (Error entry)
       then
         sendDiscordEmbed "🔓 Vault Unsealed"
                          "Vault has been successfully unsealed." 0x2ecc71
       else ret tt) ;;
      loop rest
    end
  end.

(** Lines 54-93. [true]: [main] has returned (the log could not be
    opened); [false]: it is in its loop. *)
Definition main (reads : list Legacy.Read) : M bool :=
  (* 1. Send "Warden Started" notification *)
  sendDiscordEmbed "🛡 Vault Warden Active"
                   "Monitoring audit logs for Starnix cluster..." 0x3498db ;;
  match os_Open P AuditLog with
  | Err err => Printf ("Error opening audit log: " ++ err ++ nl) ;; ret true
  | Ok _ => loop reads ;; ret false
  end.

End Code.

End Original.

(** ** A platform to run the model on

    Canned HTTP answers for the secrets server and for the webhook, a
    counting clock, a file system given as a table, and a reader for the
    part of JSON the examples use (objects, arrays, strings with simple
    escapes, integers, [true], [false], [null]; keys are matched exactly).
    It is one platform among all those the theorems quantify over. *)
Module Fixture.

#[local] Set Warnings "-register-all".

Inductive Json :=
| JNull
| JBool (b : bool)
| JNum (n : Z)
| JStr (s : string)
| JArr (items : list Json)
| JObj (fields : list (string * Json)).

Definition dq : ascii := ascii_of_nat 34.
Definition backslash : ascii := ascii_of_nat 92.

Definition isChar (c : ascii) (text : string) : bool :=
  String.eqb (String c EmptyString) text.

Definition isSpace (c : ascii) : bool :=
  let n := nat_of_ascii c in
  ((n =? 32) || (n =? 9) || (n =? 10) || (n =? 13))%nat.

Definition isDigit (c : ascii) : bool :=
  let n := nat_of_ascii c in ((48 <=? n) && (n <=? 57))%nat.

Fixpoint skipSpace (s : string) : string :=
  match s with
  | String c rest => if isSpace c then skipSpace rest else s
  | EmptyString => s
  end.

Fixpoint drop (n : nat) (s : string) : string :=
  match n, s with
  | S n', String _ rest => drop n' rest
  | _, _ => s
  end.

(** The characters of a string literal after its opening quote, and what
    follows the closing quote. *)
Fixpoint readString (s : string) : option (string * string) :=
  match s with
  | EmptyString => None
  | String c rest =>
    if Ascii.eqb c dq then Some (EmptyString, rest)
    else if Ascii.eqb c backslash then
      match rest with
      | String e rest' =>
        let plain :=
          if Ascii.eqb e dq || Ascii.eqb e backslash || isChar e "/" then Some e
          else if isChar e "n" then Some (ascii_of_nat 10)
          else if isChar e "t" then Some (ascii_of_nat 9)
          else if isChar e "r" then Some (ascii_of_nat 13)
          else None in
        match plain, readString rest' with
        | Some a, Some (text, after) => Some (String a text, after)
        | _, _ => None
        end
      | EmptyString => None
      end
    else if (nat_of_ascii c <? 32)%nat then None
    else
      match readString rest with
      | Some (text, after) => Some (String c text, after)
      | None => None
      end
  end.

Fixpoint readDigits (acc : Z) (s : string) : Z * string :=
  match s with
  | String c rest =>
    if isDigit c
    then readDigits (10 * acc + Z.of_nat (nat_of_ascii c - 48)) rest
    else (acc, s)
  | EmptyString => (acc, s)
  end.

Definition readNumber (s : string) : option (Z * string) :=
  match s with
  | String c rest =>
    if isChar c "-" then
      match rest with
      | String d _ =>
        if isDigit d then let (n, after) := readDigits 0 rest in Some (- n, after)
        else None
      | EmptyString => None
      end
    else if isDigit c then Some (readDigits 0 s)
    else None
  | EmptyString => None
  end.

Fixpoint readValue (fuel : nat) (s : string) : option (Json * string) :=
  match fuel with
  | O => None
  | S fuel' =>
    match skipSpace s with
    | EmptyString => None
    | String c rest as text =>
      if isChar c "{" then
        match skipSpace rest with
        | String c' rest' =>
          if isChar c' "}" then Some (JObj [], rest')
          else
            match readMembers fuel' rest with
            | Some (fields, after) => Some (JObj fields, after)
            | None => None
            end
        | EmptyString => None
        end
      else if isChar c "[" then
        match skipSpace rest with
        | String c' rest' =>
          if isChar c' "]" then Some (JArr [], rest')
          else
            match readItems fuel' rest with
            | Some (items, after) => Some (JArr items, after)
            | None => None
            end
        | EmptyString => None
        end
      else if Ascii.eqb c dq then
        match readString rest with
        | Some (t, after) => Some (JStr t, after)
        | None => None
        end
      else if HasPrefix text "true" then Some (JBool true, drop 4 text)
      else if HasPrefix text "false" then Some (JBool false, drop 5 text)
      else if HasPrefix text "null" then Some (JNull, drop 4 text)
      else
        match readNumber text with
        | Some (n, after) => Some (JNum n, after)
        | None => None
        end
    end
  end
with readMembers (fuel : nat) (s : string)
  : option (list (string * Json) * string) :=
  match fuel with
  | O => None
  | S fuel' =>
    match skipSpace s with
    | String c rest =>
      if Ascii.eqb c dq then
        match readString rest with
        | Some (key, after) =>
          match skipSpace after with
          | String colon after' =>
            if isChar colon ":" then
              match readValue fuel' after' with
              | Some (v, after'') =>
                match skipSpace after'' with
                | String sep more =>
                  if isChar sep "}" then Some ([(key, v)], more)
                  else if isChar sep "," then
                    match readMembers fuel' more with
                    | Some (fields, final) => Some ((key, v) :: fields, final)
                    | None => None
                    end
                  else None
                | EmptyString => None
                end
              | None => None
              end
            else None
          | EmptyString => None
          end
        | None => None
        end
      else None
    | EmptyString => None
    end
  end
with readItems (fuel : nat) (s : string) : option (list Json * string) :=
  match fuel with
  | O => None
  | S fuel' =>
    match readValue fuel' s with
    | Some (v, after) =>
      match skipSpace after with
      | String sep more =>
        if isChar sep "]" then Some ([v], more)
        else if isChar sep "," then
          match readItems fuel' more with
          | Some (items, final) => Some (v :: items, final)
          | None => None
          end
        else None
      | EmptyString => None
      end
    | None => None
    end
  end.

(** A whole document: one value and nothing but white space after it. *)
Definition readJson (text : string) : result Json :=
  match readValue (S (String.length text)) text with
  | Some (v, after) =>
    match skipSpace after with
    | EmptyString => Ok v
    | String _ _ => Err "invalid character after top-level value"
    end
  | None => Err "invalid character or unexpected end of JSON input"
  end.

Fixpoint field (name : string) (fields : list (string * Json)) : Json :=
  match fields with
  | [] => JNull
  | (k, v) :: rest => if String.eqb k name then v else field name rest
  end.

Definition asString (dflt : string) (v : Json) : result string :=
  match v with
  | JNull => Ok dflt
  | JStr s => Ok s
  | _ => Err "json: cannot unmarshal value into Go value of type string"
  end.

Definition asBool (v : Json) : result bool :=
  match v with
  | JNull => Ok false
  | JBool b => Ok b
  | _ => Err "json: cannot unmarshal value into Go value of type bool"
  end.

Definition asInt (v : Json) : result Z :=
  match v with
  | JNull => Ok 0
  | JNum n => Ok n
  | _ => Err "json: cannot unmarshal value into Go value of type int"
  end.

Definition asFields (v : Json) : result (list (string * Json)) :=
  match v with
  | JNull => Ok []
  | JObj fields => Ok fields
  | _ => Err "json: cannot unmarshal value into Go value of type struct"
  end.

Definition andThen {A B : Type} (r : result A) (k : A -> result B) : result B :=
  match r with Ok a => k a | Err e => Err e end.

Definition unmarshalStatus (body : string) : result VaultStatus :=
  andThen (readJson body) (fun doc =>
  andThen (asFields doc) (fun fs =>
  andThen (asBool (field "sealed" fs)) (fun sealed =>
  andThen (asBool (field "initialized" fs)) (fun initialized =>
  andThen (asInt (field "progress" fs)) (fun progress =>
  andThen (asInt (field "t" fs)) (fun t =>
  Ok {| Sealed := sealed; Initialized := initialized;
        Progress := progress; Threshold := t |})))))).

Definition unmarshalEntry (line : string) : result AuditEntry :=
  andThen (readJson line) (fun doc =>
  andThen (asFields doc) (fun fs =>
  andThen (asFields (field "request" fs)) (fun request =>
  andThen (asString EmptyString (field "path" request)) (fun path =>
  andThen (asFields (field "auth" fs)) (fun auth =>
  andThen (asString EmptyString (field "display_name" auth)) (fun name =>
  andThen (asString EmptyString (field "error" fs)) (fun error =>
  Ok {| Request := {| Path := path |}; Auth := {| DisplayName := name |};
        Error := error |}))))))).

Fixpoint asStrings (items : list Json) : result (list string) :=
  match items with
  | [] => Ok []
  | v :: rest =>
    andThen (asString EmptyString v) (fun s =>
    andThen (asStrings rest) (fun ss => Ok (s :: ss)))
  end.

(** Configuration files of the examples are written in YAML's flow style,
    which is JSON. *)
Definition decodeConfig (file : string) : result VaultConfig :=
  andThen (readJson file) (fun doc =>
  andThen (asFields doc) (fun fs =>
  andThen (asString EmptyString (field "address" fs)) (fun address =>
  andThen (match field "unseal_keys" fs with
           | JNull => Ok []
           | JArr items => asStrings items
           | _ => Err "yaml: cannot unmarshal value into []string"
           end) (fun keys =>
  andThen (asString EmptyString (field "webhook_url" fs)) (fun webhook =>
  andThen (asString EmptyString (field "audit_log" fs)) (fun audit =>
  Ok {| Address := address; UnsealKeys := keys; WebhookURL := webhook;
        AuditLog := audit |})))))).

(** Writing JSON text. *)
Definition quoted (s : string) : string :=
  String dq s ++ String dq EmptyString.

Definition member (key value : string) : string := quoted key ++ ":" ++ value.

Definition object (members : list string) : string :=
  "{" ++ String.concat "," members ++ "}".

Definition array (items : list string) : string :=
  "[" ++ String.concat "," items ++ "]".

Definition marshalKey (key : string) : result string :=
  Ok (object [member "key" (quoted key)]).

Definition marshalEmbed (e : DiscordEmbed) : string :=
  object [member "title" (quoted (Title e));
          member "description" (quoted (Description e));
          member "color" (itoa (Color e));
          member "timestamp" (quoted (Timestamp e))].

Definition marshalPayload (p : DiscordPayload) : result string :=
  Ok (object [member "embeds" (array (map marshalEmbed (Embeds p)))]).

(** The body of a status answer of the secrets server. *)
Definition statusBody (sealed : bool) (progress t : Z) : string :=
  object [member "sealed" (if sealed then "true" else "false");
          member "initialized" "true";
          member "progress" (itoa progress);
          member "t" (itoa t)].

Definition answer (code : Z) (body : string) : result HttpResponse :=
  Ok {| StatusCode := code; ReadAll := (body, None) |}.

(** A server that gives its canned answers in turn and refuses the
    connection once they are used up. *)
Definition Canned : Type := list (result HttpResponse).

Definition serve (script : Canned) : result HttpResponse * Canned :=
  match script with
  | [] => (Err "connection refused", [])
  | r :: rest => (r, rest)
  end.

Definition hasControl (url : string) : bool :=
  existsb (fun c => (nat_of_ascii c <? 32)%nat) (list_ascii_of_string url).

Fixpoint lookupFile (files : list (string * string)) (path : string)
  : option string :=
  match files with
  | [] => None
  | (name, content) :: rest =>
    if String.eqb name path then Some content else lookupFile rest path
  end.

Definition twoDigits (n : nat) : string :=
  (if (n <? 10)%nat then "0" else EmptyString) ++ itoa (Z.of_nat n).

Definition platform (files : list (string * string))
  : Platform Canned Canned nat :=
  {| json_Marshal_key := marshalKey;
     json_Marshal_payload := marshalPayload;
     json_Unmarshal_status := unmarshalStatus;
     json_Unmarshal_entry := unmarshalEntry;
     url_Parse := fun url =>
       if hasControl url
       then Some "net/url: invalid control character in URL" else None;
     client_Do := fun _ script => serve script;
     client_Post := fun _ _ _ script => serve script;
     time_Now := fun c =>
       ("2024-05-01T12:00:" ++ twoDigits (Nat.modulo c 60) ++ "Z", S c);
     os_Open := fun path =>
       match lookupFile files path with
       | Some content => Ok content
       | None => Err ("open " ++ path ++ ": no such file or directory")
       end;
     yaml_Decode := decodeConfig;
     os_Stat := fun path =>
       match lookupFile files path with
       | Some _ => None
       | None => Some ("stat " ++ path ++ ": no such file or directory")
       end;
     tail_TailFile := fun _ => None |}.

Definition world (vaultScript hookScript : Canned) : World Canned Canned nat :=
  {| vault := vaultScript; hook := hookScript; clock := 0%nat; trace := [] |}.

(** Sample data. *)
Definition sampleConfig : VaultConfig :=
  {| Address := "http://127.0.0.1:8200";
     UnsealKeys := ["key-one"; "key-two"; "key-three"];
     WebhookURL := "https://discord.example/api/webhooks/1";
     AuditLog := "/var/log/vault_audit.log" |}.

Definition auditLine (path name error : string) : string :=
  object [member "request" (object [member "path" (quoted path)]);
          member "auth" (object [member "display_name" (quoted name)]);
          member "error" (quoted error)].

Definition configFile (address : string) (keys : list string)
  (webhook audit : string) : string :=
  object [member "address" (quoted address);
          member "unseal_keys" (array (map quoted keys));
          member "webhook_url" (quoted webhook);
          member "audit_log" (quoted audit)].

(** The decoded form of [statusBody sealed progress t]. *)
Definition status (sealed : bool) (progress t : Z) : VaultStatus :=
  {| Sealed := sealed; Initialized := true; Progress := progress;
     Threshold := t |}.

(** Three keys, a threshold of two: the second key unseals. *)
Definition unsealsAtSecondKey : Canned :=
  [answer 503 (statusBody true 0 2);
   answer 200 (statusBody true 1 2);
   answer 200 (statusBody false 0 2)].

(** Three keys, a threshold of five: still sealed after all of them. *)
Definition staysSealed : Canned :=
  [answer 503 (statusBody true 0 5);
   answer 200 (statusBody true 1 5);
   answer 200 (statusBody true 2 5);
   answer 200 (statusBody true 3 5)].

(** Already unsealed. *)
Definition alreadyUnsealed : Canned := [answer 200 (statusBody false 0 2)].

(** The connection drops on the second key. *)
Definition dropsAtSecondKey : Canned :=
  [answer 503 (statusBody true 0 3);
   answer 200 (statusBody true 1 3);
   Err "read tcp 127.0.0.1:8200: connection reset by peer"].

(** A webhook that accepts, and one that answers 500. *)
Definition webhookUp : Canned := [answer 204 EmptyString].
Definition webhookDown : Canned := [answer 500 "internal error"].

Definition configPath : string := "/etc/vault-warden.yaml".

(** A configuration file without address, and one whose audit log path is
    empty. *)
Definition filesNoAddress : list (string * string) :=
  [(configPath,
    configFile EmptyString ["key-one"] "https://discord.example/api/webhooks/1"
               "/var/log/vault_audit.log")].

Definition configNoAuditLog : VaultConfig :=
  {| Address := "http://127.0.0.1:8200";
     UnsealKeys := ["key-one"; "key-two"; "key-three"];
     WebhookURL := "https://discord.example/api/webhooks/1";
     AuditLog := EmptyString |}.

Definition filesNoAuditLog : list (string * string) :=
  [(configPath,
    configFile (Address configNoAuditLog) (UnsealKeys configNoAuditLog)
               (WebhookURL configNoAuditLog) EmptyString)].

(** What the decoder of the earlier revision leaves in its status. *)
Definition unmarshalLegacy (body : string) : Legacy.VaultStatus :=
  let flag (name : string) (fs : list (string * Json)) : bool :=
    match field name fs with JBool b => b | _ => false end in
  match readJson body with
  | Ok (JObj fs) =>
    {| Legacy.Sealed := flag "sealed" fs;
       Legacy.Initialized := flag "initialized" fs |}
  | _ => {| Legacy.Sealed := false; Legacy.Initialized := false |}
  end.

(** A file system with the configuration and the audit log of
    [sampleConfig]. *)
Definition filesComplete : list (string * string) :=
  [(configPath,
    configFile (Address sampleConfig) (UnsealKeys sampleConfig)
               (WebhookURL sampleConfig) (AuditLog sampleConfig));
   (AuditLog sampleConfig, EmptyString)].

(** Nobody listens at the address of the secrets server. *)
Definition unreachable : Canned := [].

End Fixture.


(** * Properties *)

(** ** Strings and traces *)

Lemma append_assoc (a b c : string) : (a ++ b) ++ c = a ++ b ++ c.
Proof. induction a; simpl; congruence. Qed.

Lemma HasPrefix_app (p s : string) : HasPrefix (p ++ s) p = true.
Proof.
  induction p as [|a p IH]; simpl.
  - destruct s; reflexivity.
  - now rewrite Ascii.eqb_refl, IH.
Qed.

Lemma HasPrefix_inv (s p : string) :
  HasPrefix s p = true -> exists t, s = p ++ t.
Proof.
  revert s; induction p as [|b p IH]; intros s H.
  - now exists s.
  - destruct s as [|a s]; simpl in H; [discriminate|].
    apply andb_true_iff in H as [Hab Hp].
    apply Ascii.eqb_eq in Hab; subst b.
    destruct (IH _ Hp) as [t ->].
    now exists t.
Qed.

Lemma Contains_unfold (s substr : string) :
  Contains s substr
  = HasPrefix s substr
    || match s with
       | EmptyString => false
       | String _ s' => Contains s' substr
       end.
Proof. destruct s; reflexivity. Qed.

(** [Contains] is the substring relation on raw bytes. *)
Lemma Contains_spec (s substr : string) :
  Contains s substr = true <-> Substring substr s.
Proof.
  unfold Substring. split.
  - induction s as [|c s IH]; rewrite Contains_unfold; intros H;
      apply orb_true_iff in H as [H|H]; try discriminate.
    + apply HasPrefix_inv in H as [t H]. now exists EmptyString, t.
    + apply HasPrefix_inv in H as [t H]. now exists EmptyString, t.
    + destruct (IH H) as (a & b & ->). now exists (String c a), b.
  - intros (a & b & ->).
    induction a as [|c a IH]; rewrite Contains_unfold.
    + simpl append. now rewrite HasPrefix_app.
    + cbn [append]. rewrite IH. apply orb_true_r.
Qed.

Lemma isEmpty_spec (s : string) : isEmpty s = true <-> s = EmptyString.
Proof. destruct s; simpl; split; congruence. Qed.

Lemma requests_app (t u : list Event) :
  requests (t ++ u) = (requests t ++ requests u)%list.
Proof. apply flat_map_app. Qed.

Lemma notifications_app (t u : list Event) :
  notifications (t ++ u) = (notifications t ++ notifications u)%list.
Proof. apply filter_app. Qed.

Lemma withoutDeliveryLog_app (t u : list Event) :
  withoutDeliveryLog (t ++ u)
  = (withoutDeliveryLog t ++ withoutDeliveryLog u)%list.
Proof. apply filter_app. Qed.

Lemma delivery_notifications (evs : list Event) :
  forallb isDelivery evs = true -> notifications evs = [].
Proof.
  induction evs as [|e evs IH]; simpl; [reflexivity|].
  intros H. apply andb_true_iff in H as [He Hevs].
  destruct e; simpl in *; try discriminate; auto.
Qed.

Lemma delivery_requests (evs : list Event) :
  forallb isDelivery evs = true -> requests evs = [].
Proof.
  induction evs as [|e evs IH]; simpl; [reflexivity|].
  intros H. apply andb_true_iff in H as [He Hevs].
  destruct e; simpl in *; try discriminate; auto.
Qed.

Section Properties.

Context {Vault Hook Clock : Type}.
Variable P : Platform Vault Hook Clock.

#[local] Abbreviation W := (World Vault Hook Clock).

Lemma events_intro {A : Type} (m : W -> A * W) (w : W) (evs : list Event) :
  trace (snd (m w)) = (trace w ++ evs)%list -> events m w = evs.
Proof.
  intros H. unfold events. rewrite H, skipn_app, skipn_all, Nat.sub_diag.
  reflexivity.
Qed.

(** ** The notifier *)

(** [sendDiscord] marks the notification, then only delivers: it touches
    neither the secrets server nor anything but the webhook, the clock and
    its own delivery log. *)
Lemma sendDiscord_trace (url title desc : string) (color : Z) (w : W) :
  exists evs,
    trace (snd (sendDiscord P url title desc color w))
    = (trace w ++ Notify url title desc color :: evs)%list
    /\ forallb isDelivery evs = true
    /\ vault (snd (sendDiscord P url title desc color w)) = vault w.
Proof.
  unfold sendDiscord, bind, emit, timeNow, clientPost, Printf, ret; simpl.
  destruct (time_Now P (clock w)) as [now c]; simpl.
  destruct (json_Marshal_payload P _) as [data|err]; simpl.
  - destruct (client_Post P url _ data (hook w)) as [[resp|err] h]; simpl.
    + destruct (negb (StatusCode resp =? 204) && negb (StatusCode resp =? 200));
        [destruct (ReadAll resp) as [body rerr]|]; simpl;
        eexists; (split; [rewrite <- !app_assoc; reflexivity|]);
        split; reflexivity.
    + eexists; (split; [rewrite <- !app_assoc; reflexivity|]);
        split; reflexivity.
  - exists []; repeat split; reflexivity.
Qed.

(** When the payload is marshalled, the post goes out, whatever the
    webhook then answers; a failed delivery is reported to the caller, who
    may drop it. *)
Lemma sendDiscord_delivers (url title desc : string) (color : Z) (w : W)
  (data : string) :
  json_Marshal_payload P
    {| Embeds := [ {| Title := title; Description := desc; Color := color;
                      Timestamp := fst (time_Now P (clock w)) |} ] |}
  = Ok data ->
  exists log,
    events (sendDiscord P url title desc color) w
    = Notify url title desc color :: Post url "application/json" data :: log
    /\ forallb isDeliveryLog log = true
    /\ (log = [] <-> outcome (sendDiscord P url title desc color) w = None).
Proof.
  intros H. unfold events, outcome.
  unfold sendDiscord, bind, emit, timeNow, clientPost, Printf, ret; simpl.
  destruct (time_Now P (clock w)) as [now c]; simpl in *. rewrite H; simpl.
  destruct (client_Post P url _ data (hook w)) as [[resp|err] h]; simpl.
  - destruct (negb (StatusCode resp =? 204) && negb (StatusCode resp =? 200));
      [destruct (ReadAll resp) as [body rerr]|]; simpl;
      rewrite <- !app_assoc, skipn_app, skipn_all, Nat.sub_diag; simpl;
      eexists; (split; [reflexivity|]); split; try reflexivity;
      split; intros E; try discriminate E; reflexivity.
  - rewrite <- !app_assoc, skipn_app, skipn_all, Nat.sub_diag; simpl.
    eexists; (split; [reflexivity|]); split; try reflexivity.
    split; intros E; discriminate E.
Qed.

(** ** The audit classifier *)

(** [processAuditLine] hands the notifier exactly what the two rules of the
    classifier give for the decoded record, and nothing for a line that
    does not decode; it sends no request to the secrets server. *)
Lemma processAuditLine_trace (line url : string) (w : W) :
  exists evs,
    trace (snd (processAuditLine P line url w)) = (trace w ++ evs)%list
    /\ notifications evs
       = match json_Unmarshal_entry P line with
         | Ok entry => classify url entry
         | Err _ => []
         end
    /\ requests evs = []
    /\ vault (snd (processAuditLine P line url w)) = vault w.
Proof.
  unfold processAuditLine, classify.
  destruct (json_Unmarshal_entry P line) as [entry|err].
  2:{ exists []. simpl. rewrite app_nil_r. auto. }
  unfold bind.
  destruct (Contains (Path (Request entry)) "sign/root"
            || Contains (Path (Request entry)) "database/creds/admin").
  - match goal with |- context [sendDiscord P url titleAlert ?d colorAlert w] =>
      destruct (sendDiscord_trace url titleAlert d colorAlert w)
        as (evs1 & T1 & D1 & V1);
      destruct (sendDiscord P url titleAlert d colorAlert w) as [r1 w1]
    end.
    simpl in T1, V1. unfold Printf, emit at 1. simpl.
    set (w2 := Build_World _ _ _ _ _ _ _).
    destruct (Contains (Path (Request entry)) "sys/unseal"
              && isEmpty (Error entry)).
    + destruct (sendDiscord_trace url titleUnsealed descUnsealed colorUnsealed w2)
        as (evs2 & T2 & D2 & V2).
      destruct (sendDiscord P url titleUnsealed descUnsealed colorUnsealed w2)
        as [r2 w3].
      simpl in T2, V2 |- *. subst w2. simpl in T2, V2.
      rewrite T2, T1, V2, V1.
      eexists. split; [rewrite <- !app_assoc; reflexivity|].
      simpl. rewrite !notifications_app, !requests_app. simpl.
      rewrite !notifications_app, !requests_app.
      rewrite (delivery_notifications _ D1), (delivery_notifications _ D2).
      rewrite (delivery_requests _ D1), (delivery_requests _ D2).
      simpl. auto.
    + subst w2. simpl. rewrite T1, V1.
      eexists. split; [rewrite <- !app_assoc; reflexivity|].
      simpl. rewrite !notifications_app, !requests_app.
      rewrite (delivery_notifications _ D1), (delivery_requests _ D1).
      simpl. auto.
  - simpl.
    destruct (Contains (Path (Request entry)) "sys/unseal"
              && isEmpty (Error entry)).
    + destruct (sendDiscord_trace url titleUnsealed descUnsealed colorUnsealed w)
        as (evs2 & T2 & D2 & V2).
      destruct (sendDiscord P url titleUnsealed descUnsealed colorUnsealed w)
        as [r2 w3].
      simpl in T2, V2 |- *. rewrite T2, V2.
      eexists. split; [rewrite <- !app_assoc; reflexivity|].
      simpl. rewrite !notifications_app, !requests_app.
      rewrite (delivery_notifications _ D2), (delivery_requests _ D2).
      simpl. auto.
    + exists []. simpl. rewrite app_nil_r. auto.
Qed.

Lemma processAuditLine_classify (line url : string) (entry : AuditEntry) (w : W) :
  json_Unmarshal_entry P line = Ok entry ->
  notifications (events (processAuditLine P line url) w) = classify url entry.
Proof.
  intros H.
  destruct (processAuditLine_trace line url w) as (evs & T & N & _).
  rewrite (events_intro _ _ _ T), N, H. reflexivity.
Qed.

(** C1. A record whose request path contains [sign/root] or
    [database/creds/admin] gives exactly one Critical notification,
    whatever its other fields are and whatever else the path matches; its
    description is built from the acting identity ([auth.display_name]) and
    the request path exactly as received, and contains both. *)
Theorem privileged_access_one_critical
  (line url : string) (entry : AuditEntry) (w : W) :
  json_Unmarshal_entry P line = Ok entry ->
  Substring "sign/root" (Path (Request entry))
  \/ Substring "database/creds/admin" (Path (Request entry)) ->
  let desc := "**User:** " ++ DisplayName (Auth entry) ++ nl
              ++ "**Resource:** `" ++ Path (Request entry) ++ "`" in
  filter isCritical (notifications (events (processAuditLine P line url) w))
  = [Notify url titleAlert desc colorAlert]
  /\ severityOfColor colorAlert = Some Critical
  /\ Substring (DisplayName (Auth entry)) desc
  /\ Substring (Path (Request entry)) desc.
Proof.
  intros Hline Hpath desc.
  rewrite (processAuditLine_classify _ _ _ _ Hline). unfold classify.
  assert (Contains (Path (Request entry)) "sign/root"
          || Contains (Path (Request entry)) "database/creds/admin" = true)
    as ->.
  { apply orb_true_iff.
    destruct Hpath as [H|H]; [left|right]; now apply Contains_spec. }
  split; [|split; [reflexivity|split]].
  - destruct (Contains _ "sys/unseal" && isEmpty _); reflexivity.
  - exists "**User:** ", (nl ++ "**Resource:** `" ++ Path (Request entry) ++ "`").
    reflexivity.
  - exists ("**User:** " ++ DisplayName (Auth entry) ++ nl ++ "**Resource:** `"),
      "`".
    subst desc. rewrite !append_assoc. reflexivity.
Qed.

(** C2. A record whose request path contains [sys/unseal] gives one Info
    notification with the fixed description when its error text is empty,
    and none when it is not; the rules are all evaluated, so a record that
    also matches the privileged-access rule gives both notifications. *)
Theorem unseal_event_info
  (line url : string) (entry : AuditEntry) (w : W) :
  json_Unmarshal_entry P line = Ok entry ->
  Substring "sys/unseal" (Path (Request entry)) ->
  let sent := notifications (events (processAuditLine P line url) w) in
  let unsealed :=
    Notify url "🔓 Vault Unsealed" "Vault has been successfully unsealed."
           colorUnsealed in
  (Error entry = EmptyString ->
   filter isInfo sent = [unsealed] /\ severity unsealed = Some Info)
  /\ (Error entry <> EmptyString ->
      filter isInfo sent = [] /\ ~ In unsealed sent)
  /\ (Error entry = EmptyString ->
      Substring "sign/root" (Path (Request entry))
      \/ Substring "database/creds/admin" (Path (Request entry)) ->
      sent = [alertNotice url entry; unsealed]).
Proof.
  intros Hline Hpath sent unsealed. subst sent.
  rewrite (processAuditLine_classify _ _ _ _ Hline). unfold classify.
  apply Contains_spec in Hpath. rewrite Hpath.
  split; [intros He; split | split; [intros Hne; split | intros He Hpriv]].
  - rewrite He. simpl.
    destruct (Contains _ "sign/root" || Contains _ "database/creds/admin");
      reflexivity.
  - reflexivity.
  - destruct (isEmpty (Error entry)) eqn:E.
    + apply isEmpty_spec in E. contradiction.
    + simpl.
      destruct (Contains _ "sign/root" || Contains _ "database/creds/admin");
        reflexivity.
  - destruct (isEmpty (Error entry)) eqn:E.
    + apply isEmpty_spec in E. contradiction.
    + simpl.
      destruct (Contains _ "sign/root" || Contains _ "database/creds/admin");
        simpl; [intros [F|[]]; discriminate F | intros []].
  - rewrite He. simpl.
    assert (Contains (Path (Request entry)) "sign/root"
            || Contains (Path (Request entry)) "database/creds/admin" = true)
      as ->.
    { apply orb_true_iff.
      destruct Hpriv as [Hp|Hp]; [left|right]; now apply Contains_spec. }
    reflexivity.
Qed.

(** ** The audit loop *)

Lemma processAuditLine_malformed (line err url : string) (w : W) :
  json_Unmarshal_entry P line = Err err ->
  processAuditLine P line url w = (tt, w).
Proof. intros H. unfold processAuditLine. rewrite H. reflexivity. Qed.

Lemma auditLoop_malformed (cfg : VaultConfig) (line err : string)
  (after : list Wakeup) :
  json_Unmarshal_entry P line = Err err ->
  forall (before : list Wakeup) (w : W),
    auditLoop P cfg (before ++ Line line :: after) w
    = auditLoop P cfg (before ++ after) w.
Proof.
  intros H before.
  induction before as [|wk before IH]; intros w; simpl.
  - unfold bind. now rewrite (processAuditLine_malformed _ _ _ _ H).
  - destruct wk as [text|e|]; unfold bind.
    + destruct (processAuditLine P text (WebhookURL cfg) w) as [[] w1].
      apply IH.
    + destruct (Printf _ w) as [[] w1]. apply IH.
    + reflexivity.
Qed.

(** C9. A line that does not decode is dropped: processing it changes
    nothing (no notification, no output, no error), and a run of the monitor
    that receives it, wherever it comes, is the run that never received it. *)
Theorem malformed_line_skipped (line err : string) :
  json_Unmarshal_entry P line = Err err ->
  (forall (url : string) (w : W), processAuditLine P line url w = (tt, w))
  /\ (forall (cfg : VaultConfig) (before after : list Wakeup) (w : W),
         runAudit P cfg (before ++ Line line :: after) w
         = runAudit P cfg (before ++ after) w).
Proof.
  intros H. split.
  - intros url w. now apply processAuditLine_malformed with err.
  - intros cfg before after w. unfold runAudit, bind.
    destruct (Println _ w) as [[] w1].
    destruct (sendDiscord P _ _ _ _ w1) as [r w2].
    destruct (os_Stat P (AuditLog cfg)); [reflexivity|].
    destruct (tail_TailFile P (AuditLog cfg)); [reflexivity|].
    now apply auditLoop_malformed with err.
Qed.

(** ** The unseal loop *)

Lemma unsealLoop_nil (cfg : VaultConfig) (i : nat) (w : W) :
  unsealLoop P cfg i [] w = (Some (stillSealedError cfg), w).
Proof. reflexivity. Qed.

(** Destructs, in the goal and in the hypothesis [H] about [submitKey] or
    [checkHealth], the library calls one exchange goes through. *)
Ltac exchange H :=
  unfold submitKey, checkHealth, roundTrip, requestFor, http_NewRequest,
    unsealRequest, healthRequest in *;
  cbn [unsealLoop URL] in *;
  unfold http_NewRequest, bind, clientDo, ret in *;
  repeat match type of H with
         | context [match ?x with _ => _ end] =>
           match x with
           | ReadAll _ => destruct x as [? [?|]]
           | client_Do _ _ _ => destruct x as [[?|?] ?]
           | _ => destruct x
           end; cbn [fst snd] in *
         | context [let (_, _) := ?x in _] =>
           destruct x as [[?|?] ?]; cbn [fst snd] in *
         end;
  inversion H; subst; clear H.

(** A key answered by a status that is still sealed: one request, a progress
    line, and the loop goes on with the next key. *)
Lemma unsealLoop_sealed (cfg : VaultConfig) (i : nat) (key : string)
  (rest : list string) (w : W) (st : VaultStatus) (v' : Vault) :
  submitKey P cfg key (vault w) = (Status st, v') ->
  Sealed st = true ->
  exists w1 evs,
    unsealLoop P cfg i (key :: rest) w = unsealLoop P cfg (S i) rest w1
    /\ trace w1 = (trace w ++ evs)%list
    /\ vault w1 = v' /\ hook w1 = hook w /\ clock w1 = clock w
    /\ requests evs = requestFor P cfg key
    /\ length (requestFor P cfg key) = 1%nat
    /\ notifications evs = [].
Proof.
  intros H Hs. exchange H. rewrite Hs. cbn [negb Printf emit].
  eexists. eexists. split; [reflexivity|]. cbn.
  rewrite <- !app_assoc. repeat split.
Qed.

(** A key answered by a status that is no longer sealed: one request, one
    notification, and [nil]. *)
Lemma unsealLoop_unsealed (cfg : VaultConfig) (i : nat) (key : string)
  (rest : list string) (w : W) (st : VaultStatus) (v' : Vault) :
  submitKey P cfg key (vault w) = (Status st, v') ->
  Sealed st = false ->
  exists evs,
    fst (unsealLoop P cfg i (key :: rest) w) = None
    /\ trace (snd (unsealLoop P cfg i (key :: rest) w)) = (trace w ++ evs)%list
    /\ vault (snd (unsealLoop P cfg i (key :: rest) w)) = v'
    /\ requests evs = requestFor P cfg key
    /\ length (requestFor P cfg key) = 1%nat
    /\ notifications evs = [unsealedNotice (WebhookURL cfg)].
Proof.
  intros H Hs. exchange H. rewrite Hs. cbn [negb Println emit].
  match goal with |- context [sendDiscord P ?u ?t ?d ?c ?w0] =>
    destruct (sendDiscord_trace u t d c w0) as (evs & T & D & V);
    destruct (sendDiscord P u t d c w0) as [r1 w1]
  end.
  cbn [fst snd trace vault] in *. rewrite T, V.
  eexists. split; [reflexivity|].
  split; [rewrite <- !app_assoc; reflexivity|].
  pose proof (delivery_requests _ D) as DR.
  pose proof (delivery_notifications _ D) as DN.
  unfold requests, notifications in *. cbn. rewrite DR, DN.
  repeat split.
Qed.

(** A key whose exchange fails: the error is returned at once. *)
Lemma unsealLoop_failed (cfg : VaultConfig) (i : nat) (key : string)
  (rest : list string) (w : W) (r : Reply) (v' : Vault) :
  submitKey P cfg key (vault w) = (r, v') ->
  (forall st, r <> Status st) ->
  exists evs,
    fst (unsealLoop P cfg i (key :: rest) w) = unsealError i r
    /\ trace (snd (unsealLoop P cfg i (key :: rest) w)) = (trace w ++ evs)%list
    /\ vault (snd (unsealLoop P cfg i (key :: rest) w)) = v'
    /\ requests evs = requestFor P cfg key
    /\ (roundTripFailed r = true -> length (requestFor P cfg key) = 1%nat)
    /\ notifications evs = [].
Proof.
  intros H Hr. exchange H; cbn [unsealError];
    try (exfalso; eapply Hr; reflexivity);
    try (exists []; rewrite app_nil_r; repeat split; discriminate);
    eexists; (split; [reflexivity|]); (split; [reflexivity|]); repeat split.
Qed.

(** Keys that are all answered by a status still sealed: the loop sends one
    request for each, in order, and reaches the keys after them. *)
Lemma unsealLoop_sealed_prefix (cfg : VaultConfig) (rest : list string) :
  forall (before : list string) (i : nat) (w : W) (rs : list Reply) (v1 : Vault),
    submitKeys P cfg before (vault w) = (rs, v1) ->
    forallb stillSealed rs = true ->
    exists w1 evs,
      unsealLoop P cfg i (before ++ rest) w
      = unsealLoop P cfg (i + length before) rest w1
      /\ trace w1 = (trace w ++ evs)%list
      /\ vault w1 = v1 /\ hook w1 = hook w /\ clock w1 = clock w
      /\ requests evs = requestsFor P cfg before
      /\ length (requestsFor P cfg before) = length before
      /\ notifications evs = [].
Proof.
  induction before as [|key before IH]; intros i w rs v1 H Hall.
  - inversion H; subst. exists w, [].
    rewrite Nat.add_0_r, app_nil_r. repeat split.
  - cbn [submitKeys] in H.
    destruct (submitKey P cfg key (vault w)) as [r v] eqn:E.
    destruct (submitKeys P cfg before v) as [rs' v''] eqn:E'.
    inversion H; subst; clear H.
    cbn [forallb] in Hall. apply andb_true_iff in Hall as [Hr Hall].
    destruct r as [| | | | |st]; try discriminate. cbn [stillSealed] in Hr.
    destruct (unsealLoop_sealed cfg i key (before ++ rest) w st v E Hr)
      as (w1 & evs1 & L1 & T1 & V1 & H1 & C1 & R1 & N1 & F1).
    rewrite <- V1 in E'.
    destruct (IH (S i) w1 rs' v1 E' Hall)
      as (w2 & evs2 & L2 & T2 & V2 & H2 & C2 & R2 & N2 & F2).
    exists w2, (evs1 ++ evs2)%list.
    cbn [app length]. rewrite L1, L2, T2, T1, H2, C2.
    rewrite requests_app, notifications_app, R1, R2, F1, F2.
    unfold requestsFor in *. cbn [flat_map]. rewrite length_app, N1, N2.
    rewrite <- app_assoc, Nat.add_succ_r. repeat split; auto.
Qed.

(** ** The unseal reconciler *)

(** A health check that reports [sealed=true]: one request, then the loop
    over the configured keys. *)
Lemma runUnlock_sealed (cfg : VaultConfig) (w : W) (st : VaultStatus)
  (v0 : Vault) :
  checkHealth P cfg (vault w) = (Status st, v0) ->
  Sealed st = true ->
  exists w1 evs,
    runUnlock P cfg w = unsealLoop P cfg 0 (UnsealKeys cfg) w1
    /\ trace w1 = (trace w ++ evs)%list
    /\ vault w1 = v0 /\ hook w1 = hook w /\ clock w1 = clock w
    /\ requests evs = [healthRequest cfg]
    /\ notifications evs = [].
Proof.
  intros H Hs. unfold runUnlock. exchange H. rewrite Hs.
  cbn [negb Printf emit].
  eexists. eexists. split; [reflexivity|]. cbn.
  rewrite <- !app_assoc. repeat split.
Qed.

(** C5. When the health check reports [sealed=false], the reconciler sends
    nothing but the health request (no key is submitted), prints that the
    vault is already unsealed, notifies nobody and returns [nil]. *)
Theorem already_unsealed_noop (cfg : VaultConfig) (w : W) (st : VaultStatus)
  (v0 : Vault) :
  checkHealth P cfg (vault w) = (Status st, v0) ->
  Sealed st = false ->
  outcome (runUnlock P cfg) w = None
  /\ events (runUnlock P cfg) w
     = [Do (healthRequest cfg);
        Stdout ("✓ Vault is already unsealed. Skipping." ++ nl)]
  /\ requests (events (runUnlock P cfg) w) = [healthRequest cfg]
  /\ notifications (events (runUnlock P cfg) w) = []
  /\ vault (snd (runUnlock P cfg w)) = v0.
Proof.
  intros H Hs.
  assert (runUnlock P cfg w
          = (None,
             {| vault := v0; hook := hook w; clock := clock w;
                trace := trace w
                           ++ [Do (healthRequest cfg);
                               Stdout ("✓ Vault is already unsealed. Skipping."
                                       ++ nl)] |})) as E.
  { unfold runUnlock. exchange H. rewrite Hs. cbn [negb Println emit].
    cbn. rewrite <- !app_assoc. reflexivity. }
  unfold outcome. rewrite (events_intro (runUnlock P cfg) w _
                             (f_equal (fun x => trace (snd x)) E)).
  rewrite E. repeat split.
Qed.

(** C3. When the health check reports [sealed=true], the keys are submitted
    in their configured order, and the first answer with [sealed=false] ends
    the pass: the keys after it are not submitted, the "Vault Unsealed"
    notification is sent once and [nil] is returned. With three keys and the
    second answer unsealed ([before] of length 1), two keys are submitted. *)
Theorem unseal_stops_at_first_unsealed (cfg : VaultConfig) (w : W)
  (st0 : VaultStatus) (v0 : Vault) (before after : list string) (key : string)
  (rs : list Reply) (v1 : Vault) (st : VaultStatus) (v2 : Vault) :
  checkHealth P cfg (vault w) = (Status st0, v0) ->
  Sealed st0 = true ->
  UnsealKeys cfg = (before ++ key :: after)%list ->
  submitKeys P cfg before v0 = (rs, v1) ->
  forallb stillSealed rs = true ->
  submitKey P cfg key v1 = (Status st, v2) ->
  Sealed st = false ->
  outcome (runUnlock P cfg) w = None
  /\ requests (events (runUnlock P cfg) w)
     = healthRequest cfg :: requestsFor P cfg (before ++ [key])
  /\ length (requestsFor P cfg (before ++ [key])) = S (length before)
  /\ notifications (events (runUnlock P cfg) w)
     = [Notify (WebhookURL cfg) "🔓 Vault Unsealed"
               "Vault has been successfully unsealed." colorUnsealed]
  /\ vault (snd (runUnlock P cfg w)) = v2.
Proof.
  intros Hh Hs0 Hkeys Hbefore Hall Hkey Hs.
  destruct (runUnlock_sealed cfg w st0 v0 Hh Hs0)
    as (w1 & evs1 & L1 & T1 & V1 & _ & _ & R1 & N1).
  rewrite <- V1 in Hbefore.
  destruct (unsealLoop_sealed_prefix cfg (key :: after) before 0 w1 rs v1
              Hbefore Hall)
    as (w2 & evs2 & L2 & T2 & V2 & _ & _ & R2 & C2 & N2).
  rewrite <- V2 in Hkey.
  destruct (unsealLoop_unsealed cfg (0 + length before) key after w2 st v2
              Hkey Hs)
    as (evs3 & O3 & T3 & V3 & R3 & C3 & N3).
  assert (runUnlock P cfg w
          = unsealLoop P cfg (0 + length before) (key :: after) w2) as E.
  { rewrite L1, Hkeys. exact L2. }
  assert (trace (snd (runUnlock P cfg w))
          = (trace w ++ evs1 ++ evs2 ++ evs3)%list) as T.
  { rewrite E, T3, T2, T1, <- !app_assoc. reflexivity. }
  unfold outcome. rewrite (events_intro _ _ _ T), E.
  rewrite !requests_app, !notifications_app, R1, R2, R3, N1, N2, N3.
  unfold requestsFor in *. rewrite flat_map_app, length_app. cbn [flat_map].
  rewrite app_nil_r, C2, C3, Nat.add_1_r. repeat split; assumption.
Qed.

(** C4. When the health check reports [sealed=true] and every answer still
    has [sealed=true], every configured key is submitted, in order, nobody
    is notified, and the error names the number of keys tried. *)
Theorem unseal_exhausts_keys (cfg : VaultConfig) (w : W)
  (st0 : VaultStatus) (v0 : Vault) (rs : list Reply) (v1 : Vault) :
  checkHealth P cfg (vault w) = (Status st0, v0) ->
  Sealed st0 = true ->
  submitKeys P cfg (UnsealKeys cfg) v0 = (rs, v1) ->
  forallb stillSealed rs = true ->
  outcome (runUnlock P cfg) w
  = Some ("vault still sealed after providing all "
          ++ itoa (Z.of_nat (length (UnsealKeys cfg))) ++ " keys")
  /\ requests (events (runUnlock P cfg) w)
     = healthRequest cfg :: requestsFor P cfg (UnsealKeys cfg)
  /\ length (requestsFor P cfg (UnsealKeys cfg)) = length (UnsealKeys cfg)
  /\ notifications (events (runUnlock P cfg) w) = []
  /\ vault (snd (runUnlock P cfg w)) = v1.
Proof.
  intros Hh Hs0 Hkeys Hall.
  destruct (runUnlock_sealed cfg w st0 v0 Hh Hs0)
    as (w1 & evs1 & L1 & T1 & V1 & _ & _ & R1 & N1).
  rewrite <- V1 in Hkeys.
  destruct (unsealLoop_sealed_prefix cfg [] (UnsealKeys cfg) 0 w1 rs v1
              Hkeys Hall)
    as (w2 & evs2 & L2 & T2 & V2 & _ & _ & R2 & C2 & N2).
  rewrite app_nil_r, unsealLoop_nil in L2.
  assert (runUnlock P cfg w = (Some (stillSealedError cfg), w2)) as E.
  { rewrite L1. exact L2. }
  assert (trace (snd (runUnlock P cfg w)) = (trace w ++ evs1 ++ evs2)%list)
    as T.
  { rewrite E. cbn [snd]. rewrite T2, T1, <- !app_assoc. reflexivity. }
  unfold outcome. rewrite (events_intro _ _ _ T), E.
  rewrite !requests_app, !notifications_app, R1, R2, N1, N2.
  repeat split; assumption.
Qed.

(** C10. When, in a sealed pass, the round trip of one key fails (transport
    error, unreadable body or unparseable answer) after keys that were all
    answered with [sealed=true], the reconciler returns that error: the keys
    after the failing one are not submitted, nobody is notified, and no
    request follows the failing one, so the secrets server is left as the
    submitted keys left it. *)
Theorem unseal_aborts_on_failed_round_trip (cfg : VaultConfig) (w : W)
  (st0 : VaultStatus) (v0 : Vault) (before after : list string) (key : string)
  (rs : list Reply) (v1 : Vault) (r : Reply) (v2 : Vault) :
  checkHealth P cfg (vault w) = (Status st0, v0) ->
  Sealed st0 = true ->
  UnsealKeys cfg = (before ++ key :: after)%list ->
  submitKeys P cfg before v0 = (rs, v1) ->
  forallb stillSealed rs = true ->
  submitKey P cfg key v1 = (r, v2) ->
  roundTripFailed r = true ->
  outcome (runUnlock P cfg) w = unsealError (length before) r
  /\ outcome (runUnlock P cfg) w <> None
  /\ requests (events (runUnlock P cfg) w)
     = healthRequest cfg :: requestsFor P cfg (before ++ [key])
  /\ length (requestsFor P cfg (before ++ [key])) = S (length before)
  /\ notifications (events (runUnlock P cfg) w) = []
  /\ vault (snd (runUnlock P cfg w)) = v2.
Proof.
  intros Hh Hs0 Hkeys Hbefore Hall Hkey Hfail.
  destruct (runUnlock_sealed cfg w st0 v0 Hh Hs0)
    as (w1 & evs1 & L1 & T1 & V1 & _ & _ & R1 & N1).
  rewrite <- V1 in Hbefore.
  destruct (unsealLoop_sealed_prefix cfg (key :: after) before 0 w1 rs v1
              Hbefore Hall)
    as (w2 & evs2 & L2 & T2 & V2 & _ & _ & R2 & C2 & N2).
  rewrite <- V2 in Hkey.
  assert (forall st', r <> Status st') as Hr.
  { intros st' ->. discriminate Hfail. }
  destruct (unsealLoop_failed cfg (0 + length before) key after w2 r v2
              Hkey Hr)
    as (evs3 & O3 & T3 & V3 & R3 & C3 & N3).
  assert (runUnlock P cfg w
          = unsealLoop P cfg (0 + length before) (key :: after) w2) as E.
  { rewrite L1, Hkeys. exact L2. }
  assert (trace (snd (runUnlock P cfg w))
          = (trace w ++ evs1 ++ evs2 ++ evs3)%list) as T.
  { rewrite E, T3, T2, T1, <- !app_assoc. reflexivity. }
  unfold outcome. rewrite (events_intro _ _ _ T), E.
  rewrite !requests_app, !notifications_app, R1, R2, R3, N1, N2, N3.
  unfold requestsFor in *. rewrite flat_map_app, length_app. cbn [flat_map].
  rewrite app_nil_r, C2, (C3 Hfail), Nat.add_1_r, O3. cbn [Nat.add].
  repeat split; try assumption.
  destruct r; try discriminate Hfail; discriminate.
Qed.

(** ** Independence from the notifier's transport *)

Lemma respects_preserves {A : Type} (m : W -> A * W) :
  respects m -> preserves m.
Proof. intros H w1 w2 Hw. now apply H. Qed.

Lemma respects_ret {A : Type} (a : A) :
  respects (ret (Vault:=Vault) (Hook:=Hook) (Clock:=Clock) a).
Proof. intros w1 w2 Hw. split; [reflexivity | exact Hw]. Qed.

Lemma respects_emit (e : Event) :
  respects (emit (Vault:=Vault) (Hook:=Hook) (Clock:=Clock) e).
Proof.
  intros w1 w2 (Hv & Hc & Ht). split; [reflexivity|].
  unfold agree, emit; simpl. rewrite !withoutDeliveryLog_app, Ht. auto.
Qed.

Lemma respects_clientDo (req : HttpRequest) : respects (clientDo P req).
Proof.
  intros w1 w2 (Hv & Hc & Ht). unfold agree, clientDo. rewrite Hv.
  destruct (client_Do P req (vault w2)) as [r v]; simpl.
  rewrite !withoutDeliveryLog_app, Ht. auto.
Qed.

Lemma respects_bind {A B : Type} (m : W -> A * W) (k : A -> W -> B * W) :
  respects m -> (forall a, respects (k a)) -> respects (bind m k).
Proof.
  intros Hm Hk w1 w2 Hw. unfold bind.
  destruct (Hm w1 w2 Hw) as [E Hw'].
  destruct (m w1) as [a1 w1'], (m w2) as [a2 w2']; simpl in *. subst a2.
  now apply Hk.
Qed.

(** The result of a computation that only preserves agreement may be
    dropped, as the callers of [sendDiscord] do. *)
Lemma respects_bind_drop {A B : Type} (m : W -> A * W) (k : W -> B * W) :
  preserves m -> respects k -> respects (bind m (fun _ => k)).
Proof.
  intros Hm Hk w1 w2 Hw. unfold bind.
  specialize (Hm w1 w2 Hw).
  destruct (m w1) as [a1 w1'], (m w2) as [a2 w2']; simpl in *.
  now apply Hk.
Qed.

(** Delivery changes the webhook endpoint and the delivery log only: its
    own result depends on the transport, its other effects do not. *)
Lemma preserves_sendDiscord (url title desc : string) (color : Z) :
  preserves (sendDiscord P url title desc color).
Proof.
  intros w1 w2 (Hv & Hc & Ht).
  unfold sendDiscord, bind, emit, timeNow, clientPost, Printf, ret, agree;
    simpl.
  rewrite Hc. destruct (time_Now P (clock w2)) as [now c]; simpl.
  destruct (json_Marshal_payload P _) as [data|err]; simpl.
  2:{ rewrite !withoutDeliveryLog_app, Ht. auto. }
  destruct (client_Post P url _ data (hook w1)) as [[r1|e1] h1];
    destruct (client_Post P url _ data (hook w2)) as [[r2|e2] h2]; simpl;
    repeat match goal with
           | |- context [if ?c then _ else _] => destruct c
           end;
    repeat match goal with
           | |- context [ReadAll ?r] => destruct (ReadAll r)
           end;
    simpl; rewrite !withoutDeliveryLog_app, Ht; simpl;
    rewrite ?app_nil_r; auto.
Qed.

Create HintDb respects discriminated.

#[local] Hint Resolve respects_ret respects_emit respects_clientDo
  preserves_sendDiscord respects_preserves : respects.

(** Splits a goal [respects m] along the structure of [m]. *)
Ltac respects_step :=
  match goal with
  | |- respects (bind (sendDiscord _ _ _ _ _) _) => apply respects_bind_drop
  | |- respects (bind _ _) => apply respects_bind; [|intros ?]
  | |- respects (Printf _) => apply respects_emit
  | |- respects (Println _) => apply respects_emit
  | |- respects (match ?x with _ => _ end) => destruct x
  | |- respects (if ?c then _ else _) => destruct c
  | |- respects (let (_, _) := ?x in _) => destruct x
  | |- _ => solve [auto with respects]
  end.

Lemma respects_unsealLoop (cfg : VaultConfig) :
  forall (keys : list string) (i : nat), respects (unsealLoop P cfg i keys).
Proof.
  induction keys as [|key rest IH]; intros i; cbn [unsealLoop].
  - auto with respects.
  - repeat respects_step.
Qed.

Lemma respects_runUnlock (cfg : VaultConfig) : respects (runUnlock P cfg).
Proof.
  unfold runUnlock. repeat respects_step. apply respects_unsealLoop.
Qed.

Lemma respects_processAuditLine (line url : string) :
  respects (processAuditLine P line url).
Proof. unfold processAuditLine. repeat respects_step. Qed.

Lemma respects_auditLoop (cfg : VaultConfig) :
  forall wakeups : list Wakeup, respects (auditLoop P cfg wakeups).
Proof.
  induction wakeups as [|wk rest IH]; cbn [auditLoop].
  - auto with respects.
  - destruct wk; repeat respects_step;
      auto using respects_processAuditLine.
Qed.

Lemma respects_runAudit (cfg : VaultConfig) (wakeups : list Wakeup) :
  respects (runAudit P cfg wakeups).
Proof.
  unfold runAudit. repeat respects_step. apply respects_auditLoop.
Qed.

#[local] Hint Resolve respects_runUnlock respects_runAudit : respects.

Lemma respects_main (configPath : string) (args : list string)
  (wakeups : list Wakeup) :
  respects (main P configPath args wakeups).
Proof. unfold main. cbv zeta. repeat respects_step. Qed.

Lemma agree_withHook (w : W) (h1 h2 : Hook) :
  agree (withHook w h1) (withHook w h2).
Proof. repeat split. Qed.

(** C8. Two runs that differ only in what the webhook endpoint does (it
    answers 204, it answers 500, the connection fails) return the same
    result and have the same effects, the notifier's own delivery log
    apart: the same requests reach the secrets server in the same state,
    the same notifications are handed over and posted, the same lines are
    printed. This holds of the unseal reconciler, of the processing of an
    audit line, of the whole monitor loop and of the exit status of the
    process. *)
Theorem notifier_outcome_never_propagates (cfg : VaultConfig)
  (line url configPath : string) (args : list string)
  (wakeups : list Wakeup) (w : W) (h1 h2 : Hook) :
  (outcome (runUnlock P cfg) (withHook w h1)
   = outcome (runUnlock P cfg) (withHook w h2)
   /\ agree (snd (runUnlock P cfg (withHook w h1)))
            (snd (runUnlock P cfg (withHook w h2))))
  /\ (outcome (processAuditLine P line url) (withHook w h1)
      = outcome (processAuditLine P line url) (withHook w h2)
      /\ agree (snd (processAuditLine P line url (withHook w h1)))
               (snd (processAuditLine P line url (withHook w h2))))
  /\ (outcome (runAudit P cfg wakeups) (withHook w h1)
      = outcome (runAudit P cfg wakeups) (withHook w h2)
      /\ agree (snd (runAudit P cfg wakeups (withHook w h1)))
               (snd (runAudit P cfg wakeups (withHook w h2))))
  /\ (outcome (main P configPath args wakeups) (withHook w h1)
      = outcome (main P configPath args wakeups) (withHook w h2)
      /\ agree (snd (main P configPath args wakeups (withHook w h1)))
               (snd (main P configPath args wakeups (withHook w h2)))).
Proof.
  pose proof (agree_withHook w h1 h2) as Hw.
  split; [|split; [|split]].
  - now apply respects_runUnlock.
  - now apply respects_processAuditLine.
  - now apply respects_runAudit.
  - now apply respects_main.
Qed.

(** ** The notification of the reconciler *)

Lemma unsealLoop_notifications (cfg : VaultConfig) :
  forall (keys : list string) (i : nat) (w : W),
  exists evs,
    trace (snd (unsealLoop P cfg i keys w)) = (trace w ++ evs)%list
    /\ (notifications evs = []
        \/ notifications evs = [unsealedNotice (WebhookURL cfg)]).
Proof.
  induction keys as [|key rest IH]; intros i w.
  - exists []. rewrite unsealLoop_nil, app_nil_r. auto.
  - destruct (submitKey P cfg key (vault w)) as [r v'] eqn:E.
    destruct r as [e|e|e|e|e|st].
    6:destruct (Sealed st) eqn:Hs.
    6:{ destruct (unsealLoop_sealed cfg i key rest w st v' E Hs)
          as (w1 & evs1 & L1 & T1 & _ & _ & _ & _ & _ & N1).
        destruct (IH (S i) w1) as (evs2 & T2 & N2).
        exists (evs1 ++ evs2)%list.
        rewrite L1, T2, T1, app_assoc, notifications_app, N1. auto. }
    6:{ destruct (unsealLoop_unsealed cfg i key rest w st v' E Hs)
          as (evs & _ & T & _ & _ & _ & N).
        exists evs. auto. }
    all: match type of E with _ = (?r, _) =>
           assert (forall st, r <> Status st) as Hr by discriminate
         end;
      destruct (unsealLoop_failed cfg i key rest w _ v' E Hr)
        as (evs & _ & T & _ & _ & _ & N);
      exists evs; auto.
Qed.

Lemma runUnlock_notifications (cfg : VaultConfig) (w : W) :
  exists evs,
    trace (snd (runUnlock P cfg w)) = (trace w ++ evs)%list
    /\ (notifications evs = []
        \/ notifications evs = [unsealedNotice (WebhookURL cfg)]).
Proof.
  destruct (checkHealth P cfg (vault w)) as [r v0] eqn:E.
  destruct r as [e|e|e|e|e|st].
  6:destruct (Sealed st) eqn:Hs.
  6:{ destruct (runUnlock_sealed cfg w st v0 E Hs)
        as (w1 & evs1 & L1 & T1 & _ & _ & _ & _ & N1).
      destruct (unsealLoop_notifications cfg (UnsealKeys cfg) 0 w1)
        as (evs2 & T2 & N2).
      exists (evs1 ++ evs2)%list.
      rewrite L1, T2, T1, app_assoc, notifications_app, N1. auto. }
  all: unfold runUnlock; exchange E; try rewrite Hs; cbn [negb Println emit];
    try (exists []; rewrite app_nil_r; split; [reflexivity | left; reflexivity]);
    eexists; (split; [cbn; rewrite <- ?app_assoc; reflexivity|]);
    left; reflexivity.
Qed.

(** C7 (amended). The reconciler notifies at most once, and what it sends
    on a successful unseal is the green "Vault Unsealed" embed, the very
    notification the audit monitor's unseal rule sends: Info, not Critical.
    Red, the Critical colour, belongs to the privileged-access alert only. *)
Theorem unseal_notice_is_info (cfg : VaultConfig) (w : W) :
  let sent := notifications (events (runUnlock P cfg) w) in
  let unsealed :=
    Notify (WebhookURL cfg) "🔓 Vault Unsealed"
           "Vault has been successfully unsealed." 0x2ecc71 in
  (sent = [] \/ sent = [unsealed])
  /\ severity unsealed = Some Info
  /\ (forall (line : string) (entry : AuditEntry) (w' : W),
        json_Unmarshal_entry P line = Ok entry ->
        (In unsealed
            (notifications
               (events (processAuditLine P line (WebhookURL cfg)) w'))
         <-> Contains (Path (Request entry)) "sys/unseal"
             && isEmpty (Error entry) = true))
  /\ (forall e, In e sent -> isCritical e = false).
Proof.
  intros sent unsealed.
  destruct (runUnlock_notifications cfg w) as (evs & T & N).
  assert (sent = [] \/ sent = [unsealed]) as Hsent.
  { subst sent. rewrite (events_intro _ _ _ T). exact N. }
  split; [exact Hsent|]. split; [reflexivity|]. split.
  - intros line entry w' Hline.
    rewrite (processAuditLine_classify _ _ _ _ Hline). unfold classify.
    destruct (Contains _ "sign/root" || Contains _ "database/creds/admin");
      destruct (Contains _ "sys/unseal" && isEmpty _); cbn.
    all: split; intros H; try discriminate H; auto.
    all: repeat (destruct H as [H|H]; try discriminate H); tauto.
  - intros e He. destruct Hsent as [-> | ->]; [destruct He|].
    destruct He as [<-|[]]. reflexivity.
Qed.

(** ** Configuration *)

(** C6 (amended). Loading fails, and the process exits with status 1
    having done nothing but print, when the address, the unseal keys or the
    webhook URL is missing or empty; these three are the fields it checks:
    a configuration that has them loads, whatever its audit log path. *)
Theorem config_required_fields (path file : string) (cfg : VaultConfig) :
  os_Open P path = Ok file ->
  yaml_Decode P file = Ok cfg ->
  (Address cfg = EmptyString \/ UnsealKeys cfg = []
   \/ WebhookURL cfg = EmptyString ->
   (exists err, readConfig P path = Err err)
   /\ forall (args : list string) (wakeups : list Wakeup) (w : W),
        outcome (main P path args wakeups) w = Some 1
        /\ forallb isStdout (events (main P path args wakeups) w) = true
        /\ vault (snd (main P path args wakeups w)) = vault w
        /\ hook (snd (main P path args wakeups w)) = hook w)
  /\ (Address cfg <> EmptyString -> UnsealKeys cfg <> []
      -> WebhookURL cfg <> EmptyString -> readConfig P path = Ok cfg).
Proof.
  intros Hopen Hdecode. split.
  - intros Hmissing.
    assert (exists err, readConfig P path = Err err) as [err Herr].
    { unfold readConfig. rewrite Hopen, Hdecode.
      destruct Hmissing as [H|[H|H]]; rewrite H; cbn.
      - eauto.
      - destruct (isEmpty (Address cfg)); eauto.
      - destruct (isEmpty (Address cfg)); [eauto|].
        destruct (length (UnsealKeys cfg) =? 0)%nat; eauto. }
    split; [eauto|].
    intros args wakeups w. unfold outcome, main.
    destruct args as [|arg0 args].
    + unfold bind, Println, emit, ret; cbn [fst snd vault hook].
      erewrite events_intro
        by (unfold bind, Println, emit, ret; cbn; rewrite <- !app_assoc;
            reflexivity).
      repeat split.
    + rewrite Herr. unfold bind, Printf, emit, ret; cbn [fst snd vault hook].
      erewrite events_intro
        by (unfold bind, Printf, emit, ret; cbn; reflexivity).
      repeat split.
  - intros Ha Hk Hw. unfold readConfig. rewrite Hopen, Hdecode.
    destruct (Address cfg); [contradiction|].
    destruct (UnsealKeys cfg); [contradiction|].
    destruct (WebhookURL cfg); [contradiction|].
    reflexivity.
Qed.


(** * Further properties *)

(** ** What a run emits *)

Lemma emits_ret {A : Type} (Q : Event -> Prop) (a : A) :
  emits Q (ret (Vault:=Vault) (Hook:=Hook) (Clock:=Clock) a).
Proof. intros w. exists []. rewrite app_nil_r. auto. Qed.

Lemma emits_emit (Q : Event -> Prop) (e : Event) :
  Q e -> emits Q (emit (Vault:=Vault) (Hook:=Hook) (Clock:=Clock) e).
Proof. intros H w. exists [e]. auto. Qed.

Lemma emits_timeNow (Q : Event -> Prop) : emits Q (timeNow P).
Proof.
  intros w. exists []. unfold timeNow.
  destruct (time_Now P (clock w)); simpl. rewrite app_nil_r. auto.
Qed.

Lemma emits_clientDo (Q : Event -> Prop) (req : HttpRequest) :
  Q (Do req) -> emits Q (clientDo P req).
Proof.
  intros H w. exists [Do req]. unfold clientDo.
  destruct (client_Do P req (vault w)); simpl. auto.
Qed.

Lemma emits_clientPost (Q : Event -> Prop) (url contentType data : string) :
  Q (Post url contentType data) -> emits Q (clientPost P url contentType data).
Proof.
  intros H w. exists [Post url contentType data]. unfold clientPost.
  destruct (client_Post P url contentType data (hook w)); simpl. auto.
Qed.

Lemma emits_bind {A B : Type} (Q : Event -> Prop) (m : W -> A * W)
  (k : A -> W -> B * W) :
  emits Q m -> (forall a, emits Q (k a)) -> emits Q (bind m k).
Proof.
  intros Hm Hk w. unfold bind.
  destruct (Hm w) as (evs1 & T1 & Q1).
  destruct (m w) as [a w1]; simpl in *.
  destruct (Hk a w1) as (evs2 & T2 & Q2).
  exists (evs1 ++ evs2)%list. rewrite T2, T1, app_assoc. split; [reflexivity|].
  apply Forall_app. auto.
Qed.

(** Splits a goal [emits Q m] along the structure of [m]; what is left are
    the conditions [Q e] on the events and the calls of other functions. *)
Ltac emits_step :=
  match goal with
  | |- emits _ (bind _ _) => apply emits_bind; [|intros ?]
  | |- emits _ (ret _) => apply emits_ret
  | |- emits _ (timeNow _) => apply emits_timeNow
  | |- emits _ (emit _) => apply emits_emit
  | |- emits _ (Printf _) => apply emits_emit
  | |- emits _ (Println _) => apply emits_emit
  | |- emits _ (clientDo _ _) => apply emits_clientDo
  | |- emits _ (clientPost _ _ _ _) => apply emits_clientPost
  | |- emits _ _ =>
    match goal with
    | |- context [url_Parse P ?u] => destruct (url_Parse P u)
    | |- context [match ?x with _ => _ end] => destruct x
    | |- context [if ?c then _ else _] => destruct c
    end
  end.

(** [sendDiscord] emits its mark, a JSON post to [url] and its log. *)
Lemma emits_sendDiscord (Q : Event -> Prop) (url title desc : string)
  (color : Z) :
  Q (Notify url title desc color) ->
  (forall data, Q (Post url "application/json" data)) ->
  (forall text, Q (Stdout text)) ->
  emits Q (sendDiscord P url title desc color).
Proof.
  intros HN HP HS. unfold sendDiscord. repeat emits_step; auto.
Qed.

Lemma emits_unsealLoop (cfg : VaultConfig) :
  forall (keys : list string) (i : nat),
    emits (ToConfigured cfg) (unsealLoop P cfg i keys).
Proof.
  induction keys as [|key rest IH]; intros i; cbn [unsealLoop].
  - apply emits_ret.
  - unfold http_NewRequest.
    repeat first [ apply IH
                 | apply emits_sendDiscord
                 | emits_step ];
      cbn; auto; try (intros; cbn; auto).
    right. repeat split. discriminate.
Qed.

Lemma emits_runUnlock (cfg : VaultConfig) :
  emits (ToConfigured cfg) (runUnlock P cfg).
Proof.
  unfold runUnlock, http_NewRequest.
  repeat first [ apply emits_unsealLoop | emits_step ]; cbn; auto.
Qed.

Lemma emits_processAuditLine (Q : Event -> Prop) (line url : string) :
  (forall title desc color, Q (Notify url title desc color)) ->
  (forall data, Q (Post url "application/json" data)) ->
  (forall text, Q (Stdout text)) ->
  emits Q (processAuditLine P line url).
Proof.
  intros HN HP HS. unfold processAuditLine.
  repeat first [ apply emits_sendDiscord | emits_step ]; auto.
Qed.

Lemma emits_auditLoop (Q : Event -> Prop) (cfg : VaultConfig) :
  (forall title desc color, Q (Notify (WebhookURL cfg) title desc color)) ->
  (forall data, Q (Post (WebhookURL cfg) "application/json" data)) ->
  (forall text, Q (Stdout text)) ->
  forall wakeups : list Wakeup, emits Q (auditLoop P cfg wakeups).
Proof.
  intros HN HP HS.
  induction wakeups as [|wk rest IH]; cbn [auditLoop].
  - apply emits_ret.
  - destruct wk;
      repeat first [ apply IH
                   | apply emits_processAuditLine
                   | apply emits_sendDiscord
                   | emits_step ]; auto.
Qed.

Lemma emits_runAudit (Q : Event -> Prop) (cfg : VaultConfig)
  (wakeups : list Wakeup) :
  (forall title desc color, Q (Notify (WebhookURL cfg) title desc color)) ->
  (forall data, Q (Post (WebhookURL cfg) "application/json" data)) ->
  (forall text, Q (Stdout text)) ->
  emits Q (runAudit P cfg wakeups).
Proof.
  intros HN HP HS. unfold runAudit.
  repeat first [ apply emits_auditLoop
               | apply emits_sendDiscord
               | emits_step ]; auto.
Qed.

Lemma emits_events {A : Type} (Q : Event -> Prop) (m : W -> A * W) (w : W) :
  emits Q m -> Forall Q (events m w).
Proof.
  intros H. destruct (H w) as (evs & T & HQ).
  now rewrite (events_intro _ _ _ T).
Qed.

Lemma NotDo_requests (evs : list Event) :
  Forall NotDo evs -> requests evs = [].
Proof.
  induction 1 as [|e evs He _ IH]; [reflexivity|].
  destruct e; cbn in *; auto. contradiction.
Qed.

Lemma keepsVault_bind {A B : Type} (m : W -> A * W) (k : A -> W -> B * W) :
  keepsVault m -> (forall a, keepsVault (k a)) -> keepsVault (bind m k).
Proof.
  intros Hm Hk w. unfold bind. specialize (Hm w).
  destruct (m w) as [a w1]; simpl in *. now rewrite Hk.
Qed.

Lemma keepsVault_sendDiscord (url title desc : string) (color : Z) :
  keepsVault (sendDiscord P url title desc color).
Proof.
  intros w. now destruct (sendDiscord_trace url title desc color w)
    as (_ & _ & _ & V).
Qed.

Lemma keepsVault_processAuditLine (line url : string) :
  keepsVault (processAuditLine P line url).
Proof.
  intros w. now destruct (processAuditLine_trace line url w)
    as (_ & _ & _ & _ & V).
Qed.

Lemma keepsVault_auditLoop (cfg : VaultConfig) :
  forall wakeups : list Wakeup, keepsVault (auditLoop P cfg wakeups).
Proof.
  induction wakeups as [|wk rest IH]; cbn [auditLoop].
  - intros w. reflexivity.
  - destruct wk.
    + apply keepsVault_bind; [apply keepsVault_processAuditLine | auto].
    + apply keepsVault_bind; [intros w; reflexivity | auto].
    + apply keepsVault_bind; [intros w; reflexivity | intros _].
      apply keepsVault_bind; [apply keepsVault_sendDiscord | intros _].
      intros w. reflexivity.
Qed.

(** X1. Every HTTP exchange of a run goes where the configuration says:
    the reconciler sends a GET to [Address/v1/sys/health] and PUTs with a
    body to [Address/v1/sys/unseal]; every post, of the reconciler and of
    the monitor, is a JSON post to [WebhookURL]. *)
Theorem exchanges_go_to_configured_endpoints (cfg : VaultConfig)
  (wakeups : list Wakeup) (w : W) :
  Forall (ToConfigured cfg) (events (runUnlock P cfg) w)
  /\ Forall (ToConfigured cfg) (events (runAudit P cfg wakeups) w).
Proof.
  split; apply emits_events.
  - apply emits_runUnlock.
  - apply emits_runAudit; cbn; auto.
Qed.

(** X2. The monitor never talks to the secrets server: whatever lines,
    read errors and signals it receives, it sends no request to it and
    leaves its state as it is. *)
Theorem monitor_never_contacts_vault (cfg : VaultConfig)
  (wakeups : list Wakeup) (w : W) :
  requests (events (runAudit P cfg wakeups) w) = []
  /\ vault (snd (runAudit P cfg wakeups w)) = vault w.
Proof.
  split.
  - apply NotDo_requests, emits_events, emits_runAudit; cbn; auto.
  - revert w. change (keepsVault (runAudit P cfg wakeups)). unfold runAudit.
    apply keepsVault_bind; [intros w; reflexivity | intros _].
    apply keepsVault_bind; [apply keepsVault_sendDiscord | intros _].
    destruct (os_Stat P (AuditLog cfg)); [intros w; reflexivity|].
    destruct (tail_TailFile P (AuditLog cfg)); [intros w; reflexivity|].
    apply keepsVault_auditLoop.
Qed.

(** X3. [sendDiscord] returns [nil] exactly when the payload could be
    marshalled, the post went through and the webhook answered 200 or 204;
    any other answer, and any transport failure, is an error. *)
Theorem sendDiscord_nil_iff_accepted (url title desc : string) (color : Z)
  (w : W) :
  outcome (sendDiscord P url title desc color) w = None
  <-> exists data resp h,
        json_Marshal_payload P
          {| Embeds := [ {| Title := title; Description := desc;
                            Color := color;
                            Timestamp := fst (time_Now P (clock w)) |} ] |}
        = Ok data
        /\ client_Post P url "application/json" data (hook w) = (Ok resp, h)
        /\ (StatusCode resp = 200 \/ StatusCode resp = 204).
Proof.
  unfold outcome, sendDiscord, bind, emit, timeNow, clientPost, Printf, ret;
    simpl.
  destruct (time_Now P (clock w)) as [now c]; simpl.
  destruct (json_Marshal_payload P _) as [data|err]; simpl.
  2:{ split; [discriminate|]. intros (d & r & h & E & _). discriminate E. }
  destruct (client_Post P url _ data (hook w)) as [[resp|err] h] eqn:EP;
    simpl.
  2:{ split; [discriminate|]. intros (d & r & h' & E & E' & _).
      inversion E; subst. rewrite EP in E'. discriminate E'. }
  destruct (Z.eqb_spec (StatusCode resp) 204) as [E204|E204];
    destruct (Z.eqb_spec (StatusCode resp) 200) as [E200|E200]; simpl;
    try destruct (ReadAll resp) as [body rerr]; simpl.
  all: split; intros H; try discriminate H; try reflexivity.
  all: try (exists data, resp, h; auto).
  destruct H as (d & r & h' & E & E' & Hc).
  inversion E; subst. rewrite EP in E'. inversion E'; subst.
  destruct Hc; contradiction.
Qed.

(** X4. [sendDiscord] never retries: when the payload is marshalled it
    posts once, to [url] as JSON, whatever the webhook answers, and the
    webhook is contacted that one time; when it is not, nothing is posted. *)
Theorem sendDiscord_posts_once (url title desc : string) (color : Z)
  (w : W) :
  match json_Marshal_payload P
          {| Embeds := [ {| Title := title; Description := desc;
                            Color := color;
                            Timestamp := fst (time_Now P (clock w)) |} ] |}
  with
  | Ok data =>
    posts (events (sendDiscord P url title desc color) w)
    = [Post url "application/json" data]
    /\ hook (snd (sendDiscord P url title desc color w))
       = snd (client_Post P url "application/json" data (hook w))
  | Err err =>
    posts (events (sendDiscord P url title desc color) w) = []
    /\ hook (snd (sendDiscord P url title desc color w)) = hook w
    /\ outcome (sendDiscord P url title desc color) w
       = Some ("marshal payload: " ++ err)
  end.
Proof.
  unfold events, outcome.
  unfold sendDiscord, bind, emit, timeNow, clientPost, Printf, ret; simpl.
  destruct (time_Now P (clock w)) as [now c]; simpl.
  destruct (json_Marshal_payload P _) as [data|err]; simpl.
  - destruct (client_Post P url _ data (hook w)) as [[resp|err] h]; simpl.
    + destruct (negb (StatusCode resp =? 204) && negb (StatusCode resp =? 200));
        [destruct (ReadAll resp) as [body rerr]|]; simpl;
        rewrite <- !app_assoc, skipn_app, skipn_all, Nat.sub_diag; simpl;
        auto.
    + rewrite <- !app_assoc, skipn_app, skipn_all, Nat.sub_diag; simpl. auto.
  - rewrite skipn_app, skipn_all, Nat.sub_diag; simpl. auto.
Qed.

(** ** The reconciler's other ways out *)

Lemma events_same {A : Type} (m : W -> A * W) (w : W) :
  trace (snd (m w)) = trace w -> events m w = [].
Proof. intros H. unfold events. rewrite H. apply skipn_all. Qed.

Lemma runUnlock_health_failed (cfg : VaultConfig) (w : W) (r : Reply)
  (v0 : Vault) :
  checkHealth P cfg (vault w) = (r, v0) ->
  (forall st, r <> Status st) ->
  runUnlock P cfg w
  = (healthError r,
     {| vault := v0; hook := hook w; clock := clock w;
        trace := trace w
                   ++ (if notSent r then [] else [Do (healthRequest cfg)]) |}).
Proof.
  intros H Hr. unfold runUnlock.
  exchange H; cbn [healthError notSent];
    try (exfalso; eapply Hr; reflexivity);
    rewrite ?app_nil_r; try reflexivity.
  now destruct w.
Qed.

(** X5. When the health check fails (the request cannot be built, the
    transport fails, the body cannot be read or does not parse),
    [runUnlock] returns the wrapped error having done nothing else: no
    key is submitted, nothing is printed, nobody is notified. *)
Theorem health_check_failure_aborts (cfg : VaultConfig) (w : W) (r : Reply)
  (v0 : Vault) :
  checkHealth P cfg (vault w) = (r, v0) ->
  (forall st, r <> Status st) ->
  outcome (runUnlock P cfg) w = healthError r
  /\ outcome (runUnlock P cfg) w <> None
  /\ events (runUnlock P cfg) w
     = (if notSent r then [] else [Do (healthRequest cfg)])
  /\ vault (snd (runUnlock P cfg w)) = v0.
Proof.
  intros H Hr.
  pose proof (runUnlock_health_failed cfg w r v0 H Hr) as E.
  unfold outcome.
  rewrite (events_intro (runUnlock P cfg) w _
             (f_equal (fun x => trace (snd x)) E)).
  rewrite E. repeat split.
  destruct r; try discriminate. exfalso. eapply Hr. reflexivity.
Qed.







(** ** The monitor *)

(** X8. A record that matches no rule leaves no trace: when the path
    contains neither [sign/root] nor [database/creds/admin], and either
    does not contain [sys/unseal] or comes with an error, processing the
    line changes nothing (no output, no post, no clock reading). *)
Theorem unmatched_record_leaves_no_trace (line url : string)
  (entry : AuditEntry) (w : W) :
  json_Unmarshal_entry P line = Ok entry ->
  ~ Substring "sign/root" (Path (Request entry)) ->
  ~ Substring "database/creds/admin" (Path (Request entry)) ->
  ~ Substring "sys/unseal" (Path (Request entry))
  \/ Error entry <> EmptyString ->
  processAuditLine P line url w = (tt, w).
Proof.
  intros Hline H1 H2 H3. unfold processAuditLine. rewrite Hline.
  assert (Contains (Path (Request entry)) "sign/root" = false) as ->.
  { destruct (Contains _ _) eqn:E; [|reflexivity].
    apply Contains_spec in E. contradiction. }
  assert (Contains (Path (Request entry)) "database/creds/admin" = false)
    as ->.
  { destruct (Contains _ _) eqn:E; [|reflexivity].
    apply Contains_spec in E. contradiction. }
  assert (Contains (Path (Request entry)) "sys/unseal"
          && isEmpty (Error entry) = false) as ->.
  { destruct H3 as [H3|H3].
    - destruct (Contains _ _) eqn:E; [|reflexivity].
      apply Contains_spec in E. contradiction.
    - destruct (isEmpty (Error entry)) eqn:E; [|apply andb_false_r].
      apply isEmpty_spec in E. contradiction. }
  reflexivity.
Qed.

Lemma processAuditLine_notifications (line url : string) (w : W) :
  notifications (events (processAuditLine P line url) w)
  = match json_Unmarshal_entry P line with
    | Ok entry => classify url entry
    | Err _ => []
    end.
Proof.
  destruct (processAuditLine_trace line url w) as (evs & T & N & _).
  now rewrite (events_intro _ _ _ T).
Qed.

Lemma auditLoop_notifications (cfg : VaultConfig) :
  forall (wakeups : list Wakeup) (w : W),
  exists evs,
    trace (snd (auditLoop P cfg wakeups w)) = (trace w ++ evs)%list
    /\ notifications evs
       = (flat_map
            (fun wk =>
               match wk with
               | Line text =>
                 match json_Unmarshal_entry P text with
                 | Ok entry => classify (WebhookURL cfg) entry
                 | Err _ => []
                 end
               | _ => []
               end) (untilSignal wakeups)
          ++ (if existsb isSignal wakeups
              then [stoppedNotice (WebhookURL cfg)] else []))%list.
Proof.
  induction wakeups as [|wk rest IH]; intros w.
  - exists []. cbn. rewrite app_nil_r. auto.
  - destruct wk as [text|err|]; cbn [auditLoop untilSignal existsb isSignal
                                     flat_map orb]; unfold bind.
    + destruct (processAuditLine_trace text (WebhookURL cfg) w)
        as (evs1 & T1 & N1 & _).
      destruct (processAuditLine P text (WebhookURL cfg) w) as [[] w1].
      cbn [snd] in T1.
      destruct (IH w1) as (evs2 & T2 & N2).
      exists (evs1 ++ evs2)%list.
      rewrite T2, T1, app_assoc, notifications_app, N1, N2, app_assoc.
      auto.
    + cbn [Printf emit]. 
      match goal with |- context [auditLoop P cfg rest ?w1] =>
        destruct (IH w1) as (evs2 & T2 & N2)
      end.
      rewrite T2. cbn [trace].
      eexists. split; [rewrite <- app_assoc; reflexivity|].
      cbn. exact N2.
    + cbn [Println emit].
      match goal with |- context [sendDiscord P ?u ?t ?d ?c ?w0] =>
        destruct (sendDiscord_trace u t d c w0) as (evs & T & D & _);
        destruct (sendDiscord P u t d c w0) as [r1 w1]
      end.
      cbn [fst snd trace ret] in *. rewrite T.
      eexists. split; [rewrite <- app_assoc; reflexivity|].
      pose proof (delivery_notifications _ D) as DN.
      unfold notifications in *. cbn. rewrite DN. reflexivity.
Qed.

(** X9. The lines are classified one by one, in order, each on its own:
    the notifications of a monitor run are the start-up notice, then, for
    each line received before the first signal, the notifications that
    line gives when processed alone (in any world [w0]), then the shutdown
    notice if a signal came. Read errors and undecodable lines give none. *)
Theorem monitor_notifications_compose (cfg : VaultConfig)
  (wakeups : list Wakeup) (w w0 : W) :
  os_Stat P (AuditLog cfg) = None ->
  tail_TailFile P (AuditLog cfg) = None ->
  notifications (events (runAudit P cfg wakeups) w)
  = (activeNotice (WebhookURL cfg)
     :: flat_map
          (fun wk =>
             match wk with
             | Line text =>
               notifications
                 (events (processAuditLine P text (WebhookURL cfg)) w0)
             | _ => []
             end) (untilSignal wakeups)
     ++ (if existsb isSignal wakeups
         then [stoppedNotice (WebhookURL cfg)] else []))%list.
Proof.
  intros Hstat Htail.
  assert (exists evs,
             trace (snd (runAudit P cfg wakeups w)) = (trace w ++ evs)%list
             /\ notifications evs
                = (activeNotice (WebhookURL cfg)
                   :: flat_map
                        (fun wk =>
                           match wk with
                           | Line text =>
                             match json_Unmarshal_entry P text with
                             | Ok entry => classify (WebhookURL cfg) entry
                             | Err _ => []
                             end
                           | _ => []
                           end) (untilSignal wakeups)
                   ++ (if existsb isSignal wakeups
                       then [stoppedNotice (WebhookURL cfg)] else []))%list)
    as (evs & T & N).
  { unfold runAudit, bind. rewrite Hstat, Htail. cbn [Println emit].
    match goal with |- context [sendDiscord P ?u ?t ?d ?c ?w0] =>
      destruct (sendDiscord_trace u t d c w0) as (evs1 & T1 & D1 & _);
      destruct (sendDiscord P u t d c w0) as [r1 w1]
    end.
    cbn [fst snd trace] in *.
    destruct (auditLoop_notifications cfg wakeups w1) as (evs2 & T2 & N2).
    rewrite T2, T1.
    eexists. split; [rewrite <- !app_assoc; reflexivity|].
    pose proof (delivery_notifications _ D1) as DN.
    unfold notifications in *. cbn. rewrite filter_app, DN, N2.
    reflexivity. }
  rewrite (events_intro _ _ _ T), N. f_equal. f_equal.
  apply flat_map_ext. intros [text|err|]; try reflexivity.
  symmetry. apply processAuditLine_notifications.
Qed.

(** X10. The monitor announces itself before it looks at the audit log:
    when the log is not accessible, [runAudit] has already sent the
    start-up notification when it returns the error, and it processes no
    line. *)
Theorem monitor_notifies_before_checking_log (cfg : VaultConfig)
  (wakeups : list Wakeup) (w : W) (err : string) :
  os_Stat P (AuditLog cfg) = Some err ->
  outcome (runAudit P cfg wakeups) w
  = Some (Some ("audit log not accessible: " ++ err))
  /\ notifications (events (runAudit P cfg wakeups) w)
     = [activeNotice (WebhookURL cfg)]
  /\ runAudit P cfg wakeups w = runAudit P cfg [] w.
Proof.
  intros Hstat.
  assert (runAudit P cfg wakeups w = runAudit P cfg [] w) as E.
  { unfold runAudit, bind. rewrite Hstat. reflexivity. }
  split; [|split; [|exact E]]; unfold outcome, events; rewrite E;
    unfold runAudit, bind; rewrite Hstat; cbn [Println emit];
    match goal with |- context [sendDiscord P ?u ?t ?d ?c ?w0] =>
      destruct (sendDiscord_trace u t d c w0) as (evs1 & T1 & D1 & _);
      destruct (sendDiscord P u t d c w0) as [r1 w1]
    end;
    cbn [fst snd trace ret] in *; [reflexivity|].
  rewrite T1, <- app_assoc, skipn_app, skipn_all, Nat.sub_diag.
  pose proof (delivery_notifications _ D1) as DN.
  unfold notifications in *. cbn. rewrite DN. reflexivity.
Qed.



(** ** The entry point *)


(** X13. Any failure to load the configuration is fatal before anything
    runs: whether the file cannot be opened, does not decode or lacks a
    required field, and whatever command was asked for (even an unknown
    one), the process prints the error and exits with status 1, and does
    nothing else. *)
Theorem config_error_is_fatal (configPath err arg0 : string)
  (rest : list string) (wakeups : list Wakeup) (w : W) :
  readConfig P configPath = Err err ->
  main P configPath (arg0 :: rest) wakeups w
  = (Some 1,
     {| vault := vault w; hook := hook w; clock := clock w;
        trace := trace w ++ [Stdout ("❌ Config error: " ++ err ++ nl)] |})
  /\ ((exists e, os_Open P configPath = Err e /\ err = "open config: " ++ e)
      \/ (exists file e,
             os_Open P configPath = Ok file
             /\ yaml_Decode P file = Err e /\ err = "decode config: " ++ e)
      \/ (exists file cfg,
             os_Open P configPath = Ok file
             /\ yaml_Decode P file = Ok cfg
             /\ (Address cfg = EmptyString \/ UnsealKeys cfg = []
                 \/ WebhookURL cfg = EmptyString))).
Proof.
  intros H. split.
  - unfold main. rewrite H. reflexivity.
  - unfold readConfig in H.
    destruct (os_Open P configPath) as [file|e] eqn:EO.
    + destruct (yaml_Decode P file) as [cfg|e] eqn:ED.
      * right. right. exists file, cfg.
        split; [reflexivity|]. split; [exact ED|].
        revert H.
        destruct (Address cfg); [auto|].
        destruct (UnsealKeys cfg); [auto|].
        destruct (WebhookURL cfg); [auto|].
        cbn. intros H. discriminate H.
      * right. left. exists file, e. injection H as <-. auto.
    + left. exists e. injection H as <-. auto.
Qed.

Lemma unsealLoop_fields (cfg cfg' : VaultConfig) :
  Address cfg = Address cfg' ->
  length (UnsealKeys cfg) = length (UnsealKeys cfg') ->
  WebhookURL cfg = WebhookURL cfg' ->
  forall (keys : list string) (i : nat) (w : W),
    unsealLoop P cfg i keys w = unsealLoop P cfg' i keys w.
Proof.
  intros HA HK HW.
  induction keys as [|key rest IH]; intros i w; cbn [unsealLoop].
  - now rewrite HK.
  - rewrite HA, HW.
    destruct (json_Marshal_key P key); [|reflexivity].
    destruct (http_NewRequest P _ _ _); [|reflexivity].
    unfold bind. destruct (clientDo P _ w) as [[resp|e] w1]; [|reflexivity].
    destruct (ReadAll resp) as [b [e|]]; [reflexivity|].
    destruct (json_Unmarshal_status P b); [|reflexivity].
    destruct (negb _); [reflexivity|].
    destruct (Printf _ w1) as [[] w2]. apply IH.
Qed.

Lemma auditLoop_fields (cfg cfg' : VaultConfig) :
  WebhookURL cfg = WebhookURL cfg' ->
  forall (wakeups : list Wakeup) (w : W),
    auditLoop P cfg wakeups w = auditLoop P cfg' wakeups w.
Proof.
  intros HW.
  induction wakeups as [|wk rest IH]; intros w; cbn [auditLoop].
  - reflexivity.
  - destruct wk as [text|err|]; unfold bind; rewrite ?HW.
    + destruct (processAuditLine P text _ w) as [[] w1]. apply IH.
    + destruct (Printf _ w) as [[] w1]. apply IH.
    + reflexivity.
Qed.

(** X14. Each command reads only its own fields of the configuration:
    [runUnlock] does not depend on the audit log path, [runAudit] depends
    neither on the address nor on the unseal keys. *)
Theorem commands_read_only_their_fields (cfg : VaultConfig)
  (auditLog address : string) (keys : list string) (wakeups : list Wakeup)
  (w : W) :
  runUnlock P cfg w
  = runUnlock P {| Address := Address cfg; UnsealKeys := UnsealKeys cfg;
                   WebhookURL := WebhookURL cfg; AuditLog := auditLog |} w
  /\ runAudit P cfg wakeups w
     = runAudit P {| Address := address; UnsealKeys := keys;
                     WebhookURL := WebhookURL cfg;
                     AuditLog := AuditLog cfg |} wakeups w.
Proof.
  split.
  - unfold runUnlock. cbn [Address UnsealKeys WebhookURL].
    destruct (http_NewRequest P _ _ _); [|reflexivity].
    unfold bind. destruct (clientDo P _ w) as [[resp|e] w1]; [|reflexivity].
    destruct (ReadAll resp) as [b [e|]]; [reflexivity|].
    destruct (json_Unmarshal_status P b); [|reflexivity].
    destruct (negb _); [reflexivity|].
    destruct (Printf _ w1) as [[] w2].
    now apply unsealLoop_fields.
  - unfold runAudit, bind. cbn [WebhookURL AuditLog].
    destruct (Println _ w) as [[] w1].
    destruct (sendDiscord P _ _ _ _ w1) as [r w2].
    destruct (os_Stat P _); [reflexivity|].
    destruct (tail_TailFile P _); [reflexivity|].
    now apply auditLoop_fields.
Qed.

End Properties.

(** * The earlier revisions *)

Section Revisions.

Context {Vault Hook Clock : Type}.
Variable P : Platform Vault Hook Clock.
Variable decode : string -> Legacy.VaultStatus.

#[local] Abbreviation W := (World Vault Hook Clock).

(** The notifier of the earlier revisions marks, posts once and says
    nothing, whatever happens. *)
Lemma legacy_sendDiscord_run (url title desc : string) (color : Z) (w : W) :
  exists data h c,
    Legacy.sendDiscord P url title desc color w
    = (tt, {| vault := vault w; hook := h; clock := c;
              trace := trace w ++ [Notify url title desc color;
                                   Post url "application/json" data] |}).
Proof.
  unfold Legacy.sendDiscord, bind, emit, timeNow, clientPost, ret; simpl.
  destruct (time_Now P (clock w)) as [now c]; simpl.
  match goal with |- context [client_Post P url ?ct ?d ?h] =>
    destruct (client_Post P url ct d h) as [r h'] eqn:E; exists d, h', c
  end.
  rewrite <- app_assoc. reflexivity.
Qed.

Lemma original_sendDiscordEmbed_run (title desc : string) (color : Z) (w : W) :
  exists data h c,
    Original.sendDiscordEmbed P title desc color w
    = (tt, {| vault := vault w; hook := h; clock := c;
              trace := trace w ++ [Notify Original.WebhookURL title desc color;
                                   Post Original.WebhookURL "application/json"
                                        data] |}).
Proof.
  unfold Original.sendDiscordEmbed, bind, emit, timeNow, clientPost, ret;
    simpl.
  destruct (time_Now P (clock w)) as [now c]; simpl.
  match goal with |- context [client_Post P ?u ?ct ?d ?h] =>
    destruct (client_Post P u ct d h) as [r h'] eqn:E; exists d, h', c
  end.
  rewrite <- app_assoc. reflexivity.
Qed.

(** The rules of the loop, applied to one decoded record, in the two
    earlier revisions. *)
Lemma legacy_rules_trace (url : string) (entry : AuditEntry) (w : W) :
  let rules :=
    bind (if Contains (Path (Request entry)) "sign/root"
             || Contains (Path (Request entry)) "database/creds/admin"
          then Legacy.sendDiscord P url "🚨 SECURITY ALERT: Privileged Access"
                 ("**User:** " ++ DisplayName (Auth entry) ++ nl
                  ++ "**Resource:** `" ++ Path (Request entry) ++ "`")
                 0xe74c3c
          else ret tt)
      (fun _ =>
         if Contains (Path (Request entry)) "sys/unseal"
            && isEmpty (Error entry)
         then Legacy.sendDiscord P url "🔓 Vault Unsealed"
                "Vault has been successfully unsealed." 0x2ecc71
         else ret tt) in
  exists evs,
    trace (snd (rules w)) = (trace w ++ evs)%list
    /\ notifications evs = classify url entry.
Proof.
  intros rules. subst rules. unfold bind, classify.
  destruct (Contains _ "sign/root" || Contains _ "database/creds/admin");
    destruct (Contains _ "sys/unseal" && isEmpty _);
    cbv beta iota delta [ret];
    repeat match goal with
           | |- context [Legacy.sendDiscord P url ?t ?d ?c ?w1] =>
             let E := fresh "E" in
             destruct (legacy_sendDiscord_run url t d c w1) as (? & ? & ? & E);
             rewrite E; clear E; cbv beta iota
           end;
    cbn [snd trace].
  - eexists. split; [rewrite <- app_assoc; reflexivity | reflexivity].
  - eexists. split; reflexivity.
  - eexists. split; reflexivity.
  - exists []. rewrite app_nil_r. auto.
Qed.

Lemma legacy_auditLoop_notifications (cfg : VaultConfig) :
  forall (reads : list Legacy.Read) (w : W),
  exists evs,
    trace (snd (Legacy.auditLoop P cfg reads w)) = (trace w ++ evs)%list
    /\ notifications evs
       = flat_map
           (fun rd : Legacy.Read =>
              match rd with
              | (line, None) =>
                match json_Unmarshal_entry P line with
                | Ok entry => classify (WebhookURL cfg) entry
                | Err _ => []
                end
              | (_, Some _) => []
              end) reads.
Proof.
  induction reads as [|[line [err|]] rest IH]; intros w;
    cbn [Legacy.auditLoop flat_map].
  - exists []. cbn. rewrite app_nil_r. auto.
  - apply IH.
  - destruct (json_Unmarshal_entry P line) as [entry|err]; [|apply IH].
    match goal with |- context [bind ?m (fun _ => bind ?k _)] =>
      change (bind m (fun _ => bind k (fun _ => Legacy.auditLoop P cfg rest)) w)
      with (let (_, w1) := bind m (fun _ => k) w in
            Legacy.auditLoop P cfg rest w1) || idtac
    end.
    destruct (legacy_rules_trace (WebhookURL cfg) entry w) as (evs1 & T1 & N1).
    cbv zeta in T1.
    unfold bind in *.
    match type of T1 with trace (snd (let (_, w') := ?a in ?b w')) = _ =>
      destruct a as [u1 w1]
    end.
    match type of T1 with trace (snd ?b) = _ =>
      destruct b as [u2 w2]
    end.
    cbn [snd] in T1.
    destruct (IH w2) as (evs2 & T2 & N2).
    exists (evs1 ++ evs2)%list.
    rewrite T2, T1, app_assoc, notifications_app, N1, N2. auto.
Qed.

Lemma original_rules_trace (entry : AuditEntry) (w : W) :
  let rules :=
    bind (if Contains (Path (Request entry)) "sign/root"
             || Contains (Path (Request entry)) "database/creds/admin"
          then Original.sendDiscordEmbed P
                 "🚨 SECURITY ALERT: Privileged Access"
                 ("**User:** " ++ DisplayName (Auth entry) ++ nl
                  ++ "**Resource:** `" ++ Path (Request entry) ++ "`")
                 0xe74c3c
          else ret tt)
      (fun _ =>
         if Contains (Path (Request entry)) "sys/unseal"
            && isEmpty (Error entry)
         then Original.sendDiscordEmbed P "🔓 Vault Unsealed"
                "Vault has been successfully unsealed." 0x2ecc71
         else ret tt) in
  exists evs,
    trace (snd (rules w)) = (trace w ++ evs)%list
    /\ notifications evs = classify Original.WebhookURL entry.
Proof.
  intros rules. subst rules. unfold bind, classify.
  destruct (Contains _ "sign/root" || Contains _ "database/creds/admin");
    destruct (Contains _ "sys/unseal" && isEmpty _);
    cbv beta iota delta [ret];
    repeat match goal with
           | |- context [Original.sendDiscordEmbed P ?t ?d ?c ?w1] =>
             let E := fresh "E" in
             destruct (original_sendDiscordEmbed_run t d c w1)
               as (? & ? & ? & E);
             rewrite E; clear E; cbv beta iota
           end;
    cbn [snd trace].
  - eexists. split; [rewrite <- app_assoc; reflexivity | reflexivity].
  - eexists. split; reflexivity.
  - eexists. split; reflexivity.
  - exists []. rewrite app_nil_r. auto.
Qed.

Lemma original_loop_notifications :
  forall (reads : list Legacy.Read) (w : W),
  exists evs,
    trace (snd (Original.loop P reads w)) = (trace w ++ evs)%list
    /\ notifications evs
       = flat_map
           (fun rd : Legacy.Read =>
              match rd with
              | (line, None) =>
                match json_Unmarshal_entry P line with
                | Ok entry => classify Original.WebhookURL entry
                | Err _ => []
                end
              | (_, Some _) => []
              end) reads.
Proof.
  induction reads as [|[line [err|]] rest IH]; intros w;
    cbn [Original.loop flat_map].
  - exists []. cbn. rewrite app_nil_r. auto.
  - apply IH.
  - destruct (json_Unmarshal_entry P line) as [entry|err]; [|apply IH].
    destruct (original_rules_trace entry w) as (evs1 & T1 & N1).
    cbv zeta in *. unfold bind in *.
    match type of T1 with trace (snd (let (_, w') := ?a in ?b w')) = _ =>
      destruct a as [u1 w1]
    end.
    match type of T1 with trace (snd ?b) = _ =>
      destruct b as [u2 w2]
    end.
    cbn [snd] in T1.
    destruct (IH w2) as (evs2 & T2 & N2).
    exists (evs1 ++ evs2)%list.
    rewrite T2, T1, app_assoc, notifications_app, N1, N2. auto.
Qed.

(** X15. The three revisions classify alike: for the same reads, the loop
    of the earlier revision and the loop of the first one hand over, line
    by line, the notifications [processAuditLine] gives for the same bytes
    (for the first revision, with its constant webhook). A read that
    failed gives none. *)
Theorem revisions_classify_alike (cfg : VaultConfig)
  (reads : list Legacy.Read) (w w0 : W) :
  notifications (events (Legacy.auditLoop P cfg reads) w)
  = flat_map
      (fun rd : Legacy.Read =>
         match rd with
         | (line, None) =>
           notifications (events (processAuditLine P line (WebhookURL cfg)) w0)
         | (_, Some _) => []
         end) reads
  /\ notifications (events (Original.loop P reads) w)
     = flat_map
         (fun rd : Legacy.Read =>
            match rd with
            | (line, None) =>
              notifications
                (events (processAuditLine P line Original.WebhookURL) w0)
            | (_, Some _) => []
            end) reads.
Proof.
  split.
  - destruct (legacy_auditLoop_notifications cfg reads w) as (evs & T & N).
    rewrite (events_intro _ _ _ T), N.
    apply flat_map_ext. intros [line [err|]]; [reflexivity|].
    symmetry. apply processAuditLine_notifications.
  - destruct (original_loop_notifications reads w) as (evs & T & N).
    rewrite (events_intro _ _ _ T), N.
    apply flat_map_ext. intros [line [err|]]; [reflexivity|].
    symmetry. apply processAuditLine_notifications.
Qed.

Lemma legacy_auditLoop_skip (cfg : VaultConfig) (rd : Legacy.Read)
  (after : list Legacy.Read) :
  (forall w : W,
      Legacy.auditLoop P cfg (rd :: after) w = Legacy.auditLoop P cfg after w) ->
  forall (before : list Legacy.Read) (w : W),
    Legacy.auditLoop P cfg (before ++ rd :: after) w
    = Legacy.auditLoop P cfg (before ++ after) w.
Proof.
  intros H before.
  induction before as [|[line [err|]] before IH]; intros w.
  - apply H.
  - cbn [app Legacy.auditLoop]. apply IH.
  - cbn [app Legacy.auditLoop].
    destruct (json_Unmarshal_entry P line) as [entry|err]; [|apply IH].
    unfold bind.
    match goal with |- (let (_, w') := ?a in _) = _ =>
      destruct a as [u1 w1]
    end.
    match goal with |- (let (_, w') := ?a in _) = _ =>
      destruct a as [u2 w2]
    end.
    apply IH.
Qed.

(** X16. In the earlier revision, what [ReadString] had read when it
    failed (the end of the file reached before a line break) is thrown
    away, whatever it holds, and so is a line that does not decode: a run
    that meets such a read is the run that never met it. *)
Theorem legacy_drops_failed_reads (cfg : VaultConfig)
  (before after : list Legacy.Read) (w : W) (text err : string) :
  Legacy.auditLoop P cfg (before ++ (text, Some err) :: after) w
  = Legacy.auditLoop P cfg (before ++ after) w
  /\ (json_Unmarshal_entry P text = Err err ->
      Legacy.auditLoop P cfg (before ++ (text, None) :: after) w
      = Legacy.auditLoop P cfg (before ++ after) w).
Proof.
  split.
  - apply legacy_auditLoop_skip. reflexivity.
  - intros H. apply legacy_auditLoop_skip. intros w'.
    cbn [Legacy.auditLoop]. now rewrite H.
Qed.

(** The key loop of the earlier revision sends every key, whatever the
    server answers. *)
Lemma legacy_sendKeys_all (cfg : VaultConfig) :
  url_Parse P (Address cfg ++ "/v1/sys/unseal") = None ->
  forall (keys : list string) (w : W),
    fst (Legacy.sendKeys P cfg keys w) = Legacy.Returned
    /\ trace (snd (Legacy.sendKeys P cfg keys w))
       = (trace w
          ++ map (fun key =>
                    Do (unsealRequest cfg
                          match json_Marshal_key P key with
                          | Ok reqBody => reqBody
                          | Err _ => EmptyString
                          end)) keys)%list.
Proof.
  intros Hurl.
  induction keys as [|key rest IH]; intros w; cbn [Legacy.sendKeys map].
  - rewrite app_nil_r. split; reflexivity.
  - unfold http_NewRequest. rewrite Hurl. unfold bind, clientDo.
    match goal with |- context [client_Do P ?r ?v] =>
      destruct (client_Do P r v) as [res v']
    end.
    match goal with |- context [Legacy.sendKeys P cfg rest ?w1] =>
      destruct (IH w1) as [O T]
    end.
    rewrite O, T. cbn [trace]. rewrite <- app_assoc. split; reflexivity.
Qed.

(** X17. The earlier revision does not look at the answers: when the
    health check reports a sealed server, it sends every configured key,
    in order, whatever the server answers to each (an unsealed status, an
    error, nothing), and it notifies nobody. *)
Theorem legacy_unlock_sends_every_key (cfg : VaultConfig) (w : W)
  (resp : HttpResponse) (v0 : Vault) :
  url_Parse P (Address cfg ++ "/v1/sys/health") = None ->
  client_Do P (healthRequest cfg) (vault w) = (Ok resp, v0) ->
  Legacy.Sealed (decode (fst (ReadAll resp))) = true ->
  url_Parse P (Address cfg ++ "/v1/sys/unseal") = None ->
  outcome (Legacy.runUnlock P decode cfg) w = Legacy.Returned
  /\ requests (events (Legacy.runUnlock P decode cfg) w)
     = healthRequest cfg
       :: map (fun key =>
                 unsealRequest cfg
                   match json_Marshal_key P key with
                   | Ok reqBody => reqBody
                   | Err _ => EmptyString
                   end) (UnsealKeys cfg)
  /\ notifications (events (Legacy.runUnlock P decode cfg) w) = []
  /\ posts (events (Legacy.runUnlock P decode cfg) w) = [].
Proof.
  intros Hh Hdo Hsealed Hu.
  assert (exists w1,
             Legacy.runUnlock P decode cfg w
             = Legacy.sendKeys P cfg (UnsealKeys cfg) w1
             /\ trace w1
                = (trace w ++ [Do (healthRequest cfg);
                               Stdout ("Vault is sealed. Sending keys..."
                                       ++ nl)])%list) as (w1 & E & T1).
  { unfold Legacy.runUnlock, http_NewRequest. rewrite Hh.
    unfold bind, clientDo. fold (healthRequest cfg). rewrite Hdo.
    destruct (ReadAll resp) as [body rerr]. cbn [fst] in Hsealed.
    rewrite Hsealed. cbn [negb Println emit].
    eexists. split; [reflexivity|].
    cbn [trace]. rewrite <- app_assoc. reflexivity. }
  destruct (legacy_sendKeys_all cfg Hu (UnsealKeys cfg) w1) as [O T].
  assert (trace (snd (Legacy.runUnlock P decode cfg w))
          = (trace w
             ++ [Do (healthRequest cfg);
                 Stdout ("Vault is sealed. Sending keys..." ++ nl)]
             ++ map (fun key =>
                       Do (unsealRequest cfg
                             match json_Marshal_key P key with
                             | Ok reqBody => reqBody
                             | Err _ => EmptyString
                             end)) (UnsealKeys cfg))%list) as TT.
  { rewrite E, T, T1, <- app_assoc. reflexivity. }
  unfold outcome. rewrite (events_intro _ _ _ TT), E, O.
  split; [reflexivity|].
  cbn [app]. unfold requests, notifications, posts. cbn [flat_map filter
    isNotify isPost app].
  generalize (UnsealKeys cfg) as keys.
  intros keys. repeat split.
  - f_equal. induction keys as [|key rest IH]; cbn; [reflexivity|].
    now rewrite IH.
  - induction keys as [|key rest IH]; cbn; [reflexivity | exact IH].
  - induction keys as [|key rest IH]; cbn; [reflexivity | exact IH].
Qed.

Lemma legacy_runUnlock_returns (cfg : VaultConfig) (w : W) :
  url_Parse P (Address cfg ++ "/v1/sys/unseal") = None ->
  fst (Legacy.runUnlock P decode cfg w) = Legacy.Returned.
Proof.
  intros Hu. unfold Legacy.runUnlock, http_NewRequest, bind.
  destruct (url_Parse P (Address cfg ++ "/v1/sys/health")).
  { reflexivity. }
  destruct (clientDo P _ w) as [[resp|err] w1]; [|reflexivity].
  destruct (ReadAll resp) as [body rerr].
  destruct (negb _); [reflexivity|].
  destruct (Println _ w1) as [[] w2].
  apply (legacy_sendKeys_all cfg Hu).
Qed.

(** X18. In the earlier revision the exit status says nothing about the
    unseal: once a configuration decodes, whatever it holds, [unlock]
    exits with status 0 whether the server was reached or not, unsealed or
    not (the unseal URL being one [http.NewRequest] accepts). *)
Theorem legacy_unlock_exits_zero (configPath file : string)
  (cfg : VaultConfig) (rest : list string) (reads : list Legacy.Read)
  (w : W) :
  os_Open P configPath = Ok file ->
  yaml_Decode P file = Ok cfg ->
  url_Parse P (Address cfg ++ "/v1/sys/unseal") = None ->
  outcome (Legacy.main P decode configPath ("unlock" :: rest) reads) w
  = Some 0.
Proof.
  intros Hopen Hdecode Hu. unfold outcome, Legacy.main, Legacy.readConfig.
  rewrite Hopen, Hdecode. cbn [String.eqb Ascii.eqb Bool.eqb andb].
  unfold bind.
  pose proof (legacy_runUnlock_returns cfg w Hu) as R.
  destruct (Legacy.runUnlock P decode cfg w) as [c w1].
  cbn [fst] in R. subst c. reflexivity.
Qed.

End Revisions.

(** * The properties on the sample platform *)

Lemma privileged_access_one_critical_witness :
  let P := Fixture.platform [] in
  let line := Fixture.auditLine "ssh/sign/root" "alice" EmptyString in
  let entry := {| Request := {| Path := "ssh/sign/root" |};
                  Auth := {| DisplayName := "alice" |};
                  Error := EmptyString |} in
  let url := "https://discord.example/api/webhooks/1" in
  let w := Fixture.world [] Fixture.webhookUp in
  json_Unmarshal_entry P line = Ok entry
  /\ Substring "sign/root" (Path (Request entry))
  /\ filter isCritical (notifications (events (processAuditLine P line url) w))
     = [Notify url titleAlert
               ("**User:** alice" ++ nl ++ "**Resource:** `ssh/sign/root`")
               colorAlert].
Proof.
  intros P line entry url w.
  assert (H1 : json_Unmarshal_entry P line = Ok entry)
    by (vm_compute; reflexivity).
  assert (H2 : Substring "sign/root" (Path (Request entry)))
    by (exists "ssh/", EmptyString; reflexivity).
  split; [exact H1|]. split; [exact H2|].
  exact (proj1 (privileged_access_one_critical P line url entry w H1
                  (or_introl H2))).
Defined.

Lemma unseal_event_info_witness :
  let P := Fixture.platform [] in
  let url := "https://discord.example/api/webhooks/1" in
  let w := Fixture.world [] Fixture.webhookUp in
  let unsealed :=
    Notify url "🔓 Vault Unsealed" "Vault has been successfully unsealed."
           colorUnsealed in
  let ok := {| Request := {| Path := "sys/unseal" |};
               Auth := {| DisplayName := "root" |};
               Error := EmptyString |} in
  let failed := {| Request := {| Path := "sys/unseal" |};
                   Auth := {| DisplayName := "root" |};
                   Error := "permission denied" |} in
  let both := {| Request := {| Path := "sys/unseal/sign/root" |};
                 Auth := {| DisplayName := "root" |};
                 Error := EmptyString |} in
  filter isInfo
    (notifications
       (events (processAuditLine P (Fixture.auditLine "sys/unseal" "root"
                                      EmptyString) url) w))
  = [unsealed]
  /\ filter isInfo
       (notifications
          (events (processAuditLine P (Fixture.auditLine "sys/unseal" "root"
                                         "permission denied") url) w))
     = []
  /\ notifications
       (events (processAuditLine P (Fixture.auditLine "sys/unseal/sign/root"
                                      "root" EmptyString) url) w)
     = [alertNotice url both; unsealed].
Proof.
  intros P url w unsealed ok failed both.
  assert (A1 : json_Unmarshal_entry P
                 (Fixture.auditLine "sys/unseal" "root" EmptyString) = Ok ok)
    by (vm_compute; reflexivity).
  assert (A2 : Substring "sys/unseal" (Path (Request ok)))
    by (exists EmptyString, EmptyString; reflexivity).
  assert (B1 : json_Unmarshal_entry P
                 (Fixture.auditLine "sys/unseal" "root" "permission denied")
               = Ok failed)
    by (vm_compute; reflexivity).
  assert (B2 : Error failed <> EmptyString) by discriminate.
  assert (C1 : json_Unmarshal_entry P
                 (Fixture.auditLine "sys/unseal/sign/root" "root" EmptyString)
               = Ok both)
    by (vm_compute; reflexivity).
  assert (C2 : Substring "sys/unseal" (Path (Request both)))
    by (exists EmptyString, "/sign/root"; reflexivity).
  assert (C3 : Substring "sign/root" (Path (Request both)))
    by (exists "sys/unseal/", EmptyString; reflexivity).
  split; [|split].
  - exact (proj1 (proj1 (unseal_event_info P _ url ok w A1 A2) eq_refl)).
  - exact (proj1 (proj1 (proj2 (unseal_event_info P _ url failed w B1 A2)) B2)).
  - exact (proj2 (proj2 (unseal_event_info P _ url both w C1 C2)) eq_refl
             (or_introl C3)).
Defined.

Lemma malformed_line_skipped_witness :
  let P := Fixture.platform [] in
  let good := Fixture.auditLine "ssh/sign/root" "alice" EmptyString in
  let w := Fixture.world [] Fixture.webhookUp in
  json_Unmarshal_entry P "{not json"
  = Err "invalid character or unexpected end of JSON input"
  /\ runAudit P Fixture.sampleConfig [Line "{not json"; Line good] w
     = runAudit P Fixture.sampleConfig [Line good] w.
Proof.
  intros P good w.
  assert (H : json_Unmarshal_entry P "{not json"
              = Err "invalid character or unexpected end of JSON input")
    by (vm_compute; reflexivity).
  split; [exact H|].
  exact (proj2 (malformed_line_skipped P _ _ H) Fixture.sampleConfig
           [] [Line good] w).
Defined.

Lemma already_unsealed_noop_witness :
  let P := Fixture.platform [] in
  let cfg := Fixture.sampleConfig in
  let w := Fixture.world Fixture.alreadyUnsealed Fixture.webhookUp in
  checkHealth P cfg (vault w) = (Status (Fixture.status false 0 2), [])
  /\ outcome (runUnlock P cfg) w = None
  /\ events (runUnlock P cfg) w
     = [Do (healthRequest cfg);
        Stdout ("✓ Vault is already unsealed. Skipping." ++ nl)].
Proof.
  intros P cfg w.
  assert (H : checkHealth P cfg (vault w)
              = (Status (Fixture.status false 0 2), []))
    by (vm_compute; reflexivity).
  split; [exact H|].
  destruct (already_unsealed_noop P cfg w _ _ H eq_refl) as (O & E & _).
  exact (conj O E).
Defined.

Lemma unseal_stops_at_first_unsealed_witness :
  let P := Fixture.platform [] in
  let cfg := Fixture.sampleConfig in
  let w := Fixture.world Fixture.unsealsAtSecondKey Fixture.webhookUp in
  UnsealKeys cfg = ["key-one"; "key-two"; "key-three"]
  /\ outcome (runUnlock P cfg) w = None
  /\ requests (events (runUnlock P cfg) w)
     = healthRequest cfg :: requestsFor P cfg ["key-one"; "key-two"]
  /\ length (requestsFor P cfg ["key-one"; "key-two"]) = 2%nat
  /\ notifications (events (runUnlock P cfg) w)
     = [Notify (WebhookURL cfg) "🔓 Vault Unsealed"
               "Vault has been successfully unsealed." colorUnsealed].
Proof.
  intros P cfg w.
  assert (H1 : checkHealth P cfg (vault w)
               = (Status (Fixture.status true 0 2),
                  [Fixture.answer 200 (Fixture.statusBody true 1 2);
                   Fixture.answer 200 (Fixture.statusBody false 0 2)]))
    by (vm_compute; reflexivity).
  assert (H2 : UnsealKeys cfg = (["key-one"] ++ "key-two" :: ["key-three"])%list)
    by reflexivity.
  assert (H3 : submitKeys P cfg ["key-one"]
                 [Fixture.answer 200 (Fixture.statusBody true 1 2);
                  Fixture.answer 200 (Fixture.statusBody false 0 2)]
               = ([Status (Fixture.status true 1 2)],
                  [Fixture.answer 200 (Fixture.statusBody false 0 2)]))
    by (vm_compute; reflexivity).
  assert (H4 : submitKey P cfg "key-two"
                 [Fixture.answer 200 (Fixture.statusBody false 0 2)]
               = (Status (Fixture.status false 0 2), []))
    by (vm_compute; reflexivity).
  split; [reflexivity|].
  destruct (unseal_stops_at_first_unsealed P cfg w _ _ _ _ _ _ _ _ _
              H1 eq_refl H2 H3 eq_refl H4 eq_refl) as (O & R & L & N & _).
  exact (conj O (conj R (conj L N))).
Defined.

Lemma unseal_exhausts_keys_witness :
  let P := Fixture.platform [] in
  let cfg := Fixture.sampleConfig in
  let w := Fixture.world Fixture.staysSealed Fixture.webhookUp in
  outcome (runUnlock P cfg) w
  = Some "vault still sealed after providing all 3 keys"
  /\ length (requests (events (runUnlock P cfg) w)) = 4%nat
  /\ notifications (events (runUnlock P cfg) w) = [].
Proof.
  intros P cfg w.
  assert (H1 : checkHealth P cfg (vault w)
               = (Status (Fixture.status true 0 5),
                  [Fixture.answer 200 (Fixture.statusBody true 1 5);
                   Fixture.answer 200 (Fixture.statusBody true 2 5);
                   Fixture.answer 200 (Fixture.statusBody true 3 5)]))
    by (vm_compute; reflexivity).
  assert (H2 : submitKeys P cfg (UnsealKeys cfg)
                 [Fixture.answer 200 (Fixture.statusBody true 1 5);
                  Fixture.answer 200 (Fixture.statusBody true 2 5);
                  Fixture.answer 200 (Fixture.statusBody true 3 5)]
               = ([Status (Fixture.status true 1 5);
                   Status (Fixture.status true 2 5);
                   Status (Fixture.status true 3 5)], []))
    by (vm_compute; reflexivity).
  destruct (unseal_exhausts_keys P cfg w _ _ _ _ H1 eq_refl H2 eq_refl)
    as (O & R & L & N & _).
  split; [exact O|]. split; [|exact N].
  rewrite R. cbn [length]. rewrite L. reflexivity.
Defined.

Lemma unseal_aborts_on_failed_round_trip_witness :
  let P := Fixture.platform [] in
  let cfg := Fixture.sampleConfig in
  let w := Fixture.world Fixture.dropsAtSecondKey Fixture.webhookUp in
  outcome (runUnlock P cfg) w
  = Some ("unseal request 2 failed: "
          ++ "read tcp 127.0.0.1:8200: connection reset by peer")
  /\ requests (events (runUnlock P cfg) w)
     = healthRequest cfg :: requestsFor P cfg ["key-one"; "key-two"]
  /\ notifications (events (runUnlock P cfg) w) = [].
Proof.
  intros P cfg w.
  assert (H1 : checkHealth P cfg (vault w)
               = (Status (Fixture.status true 0 3),
                  [Fixture.answer 200 (Fixture.statusBody true 1 3);
                   Err "read tcp 127.0.0.1:8200: connection reset by peer"]))
    by (vm_compute; reflexivity).
  assert (H2 : UnsealKeys cfg = (["key-one"] ++ "key-two" :: ["key-three"])%list)
    by reflexivity.
  assert (H3 : submitKeys P cfg ["key-one"]
                 [Fixture.answer 200 (Fixture.statusBody true 1 3);
                  Err "read tcp 127.0.0.1:8200: connection reset by peer"]
               = ([Status (Fixture.status true 1 3)],
                  [Err "read tcp 127.0.0.1:8200: connection reset by peer"]))
    by (vm_compute; reflexivity).
  assert (H4 : submitKey P cfg "key-two"
                 [Err "read tcp 127.0.0.1:8200: connection reset by peer"]
               = (TransportError
                    "read tcp 127.0.0.1:8200: connection reset by peer", []))
    by (vm_compute; reflexivity).
  destruct (unseal_aborts_on_failed_round_trip P cfg w _ _ _ _ _ _ _ _ _
              H1 eq_refl H2 H3 eq_refl H4 eq_refl)
    as (O & _ & R & _ & N & _).
  exact (conj O (conj R N)).
Defined.

Lemma config_required_fields_witness :
  let missing := Fixture.platform Fixture.filesNoAddress in
  let complete := Fixture.platform Fixture.filesNoAuditLog in
  let w := Fixture.world Fixture.alreadyUnsealed Fixture.webhookUp in
  (exists err, readConfig missing Fixture.configPath = Err err)
  /\ outcome (main missing Fixture.configPath ["unlock"] []) w = Some 1
  /\ readConfig complete Fixture.configPath = Ok Fixture.configNoAuditLog.
Proof.
  intros missing complete w.
  assert (M1 : os_Open missing Fixture.configPath
               = Ok (Fixture.configFile EmptyString ["key-one"]
                       "https://discord.example/api/webhooks/1"
                       "/var/log/vault_audit.log"))
    by reflexivity.
  assert (M2 : yaml_Decode missing
                 (Fixture.configFile EmptyString ["key-one"]
                    "https://discord.example/api/webhooks/1"
                    "/var/log/vault_audit.log")
               = Ok {| Address := EmptyString; UnsealKeys := ["key-one"];
                       WebhookURL := "https://discord.example/api/webhooks/1";
                       AuditLog := "/var/log/vault_audit.log" |})
    by (vm_compute; reflexivity).
  assert (C1 : os_Open complete Fixture.configPath
               = Ok (Fixture.configFile (Address Fixture.configNoAuditLog)
                       (UnsealKeys Fixture.configNoAuditLog)
                       (WebhookURL Fixture.configNoAuditLog) EmptyString))
    by reflexivity.
  assert (C2 : yaml_Decode complete
                 (Fixture.configFile (Address Fixture.configNoAuditLog)
                    (UnsealKeys Fixture.configNoAuditLog)
                    (WebhookURL Fixture.configNoAuditLog) EmptyString)
               = Ok Fixture.configNoAuditLog)
    by (vm_compute; reflexivity).
  destruct (proj1 (config_required_fields missing _ _ _ M1 M2)
              (or_introl eq_refl)) as (E & Hmain).
  split; [exact E|]. split; [exact (proj1 (Hmain ["unlock"] [] w))|].
  apply (proj2 (config_required_fields complete _ _ _ C1 C2)); discriminate.
Defined.

(** C6, as stated, fails: a configuration whose audit log path is empty
    loads, and [unlock] runs on it and exits with status 0; [audit] sends its
    start-up notification before it finds the path unusable. *)
Lemma config_loads_without_audit_log :
  let P := Fixture.platform Fixture.filesNoAuditLog in
  let w := Fixture.world Fixture.alreadyUnsealed Fixture.webhookUp in
  yaml_Decode P (Fixture.configFile "http://127.0.0.1:8200"
                   ["key-one"; "key-two"; "key-three"]
                   "https://discord.example/api/webhooks/1" EmptyString)
  = Ok Fixture.configNoAuditLog
  /\ AuditLog Fixture.configNoAuditLog = EmptyString
  /\ readConfig P Fixture.configPath = Ok Fixture.configNoAuditLog
  /\ ~ (exists err, readConfig P Fixture.configPath = Err err)
  /\ outcome (main P Fixture.configPath ["unlock"] []) w = Some 0
  /\ outcome (main P Fixture.configPath ["audit"] []) w = Some 1
  /\ notifications (events (main P Fixture.configPath ["audit"] []) w)
     = [Notify "https://discord.example/api/webhooks/1" "🛡️ Vault Warden Active"
               "Monitoring audit logs for Starnix cluster..." colorActive].
Proof.
  intros P w.
  assert (R : readConfig P Fixture.configPath = Ok Fixture.configNoAuditLog)
    by (vm_compute; reflexivity).
  repeat split; try exact R; try (vm_compute; reflexivity).
  intros [err E]. rewrite R in E. discriminate E.
Qed.

(** C7, as stated, fails: on a successful unseal the reconciler's
    notification is green, the Info colour, not Critical. *)
Lemma unseal_notice_not_critical :
  let P := Fixture.platform [] in
  let cfg := Fixture.sampleConfig in
  let w := Fixture.world Fixture.unsealsAtSecondKey Fixture.webhookUp in
  let sent := Notify (WebhookURL cfg) "🔓 Vault Unsealed"
                     "Vault has been successfully unsealed." 0x2ecc71 in
  outcome (runUnlock P cfg) w = None
  /\ notifications (events (runUnlock P cfg) w) = [sent]
  /\ severity sent = Some Info
  /\ severity sent <> Some Critical.
Proof.
  intros P cfg w sent.
  repeat split; try (vm_compute; reflexivity).
  discriminate.
Qed.

(** The webhook answering 500 instead of 204: [sendDiscord] itself returns
    an error, the reconciler returns the same result; only the delivery log
    differs. *)
Example sendDiscord_reports_failure :
  outcome (sendDiscord (Fixture.platform []) "https://discord.example/hook"
             titleUnsealed descUnsealed colorUnsealed)
          (Fixture.world [] Fixture.webhookDown)
  = Some "discord returned status 500".
Proof. vm_compute. reflexivity. Qed.


Example webhook_500_same_outcome :
  let P := Fixture.platform [] in
  let cfg := Fixture.sampleConfig in
  let up := Fixture.world Fixture.unsealsAtSecondKey Fixture.webhookUp in
  let down := Fixture.world Fixture.unsealsAtSecondKey Fixture.webhookDown in
  outcome (runUnlock P cfg) up = None
  /\ outcome (runUnlock P cfg) down = None
  /\ events (runUnlock P cfg) down
     = (events (runUnlock P cfg) up
        ++ [Stdout ("⚠️  Discord returned 500: internal error" ++ nl)])%list.
Proof. repeat split; vm_compute; reflexivity. Qed.

(** * The further properties on the sample platform *)

Lemma health_check_failure_aborts_witness :
  let P := Fixture.platform [] in
  let cfg := Fixture.sampleConfig in
  let w := Fixture.world Fixture.unreachable Fixture.webhookUp in
  checkHealth P cfg (vault w) = (TransportError "connection refused", [])
  /\ outcome (runUnlock P cfg) w
     = Some "health check failed: connection refused"
  /\ events (runUnlock P cfg) w = [Do (healthRequest cfg)].
Proof.
  intros P cfg w.
  assert (H : checkHealth P cfg (vault w)
              = (TransportError "connection refused", []))
    by (vm_compute; reflexivity).
  assert (Hr : forall st, TransportError "connection refused" <> Status st)
    by discriminate.
  split; [exact H|].
  destruct (health_check_failure_aborts P cfg w _ _ H Hr) as (O & _ & E & _).
  exact (conj O E).
Defined.

Lemma unmatched_record_leaves_no_trace_witness :
  let P := Fixture.platform [] in
  let line := Fixture.auditLine "secret/data/app" "bob" EmptyString in
  let entry := {| Request := {| Path := "secret/data/app" |};
                  Auth := {| DisplayName := "bob" |};
                  Error := EmptyString |} in
  let w := Fixture.world [] Fixture.webhookUp in
  json_Unmarshal_entry P line = Ok entry
  /\ processAuditLine P line "https://discord.example/api/webhooks/1" w
     = (tt, w).
Proof.
  intros P line entry w.
  assert (H : json_Unmarshal_entry P line = Ok entry)
    by (vm_compute; reflexivity).
  assert (N1 : ~ Substring "sign/root" (Path (Request entry))).
  { intros C. apply Contains_spec in C. discriminate C. }
  assert (N2 : ~ Substring "database/creds/admin" (Path (Request entry))).
  { intros C. apply Contains_spec in C. discriminate C. }
  assert (N3 : ~ Substring "sys/unseal" (Path (Request entry))).
  { intros C. apply Contains_spec in C. discriminate C. }
  split; [exact H|].
  exact (unmatched_record_leaves_no_trace P line _ entry w H N1 N2
           (or_introl N3)).
Defined.

Lemma monitor_notifications_compose_witness :
  let P := Fixture.platform Fixture.filesComplete in
  let cfg := Fixture.sampleConfig in
  let url := WebhookURL cfg in
  let alert := Fixture.auditLine "ssh/sign/root" "alice" EmptyString in
  let w := Fixture.world [] [] in
  os_Stat P (AuditLog cfg) = None
  /\ notifications
       (events (runAudit P cfg [Line alert; LineErr "EOF"; Line "{not json";
                                Signal; Line alert]) w)
     = [activeNotice url;
        Notify url titleAlert
               ("**User:** alice" ++ nl ++ "**Resource:** `ssh/sign/root`")
               colorAlert;
        stoppedNotice url].
Proof.
  intros P cfg url alert w.
  assert (H1 : os_Stat P (AuditLog cfg) = None) by reflexivity.
  assert (H2 : tail_TailFile P (AuditLog cfg) = None) by reflexivity.
  split; [exact H1|].
  rewrite (monitor_notifications_compose P cfg _ w w H1 H2).
  vm_compute. reflexivity.
Defined.

Lemma monitor_notifies_before_checking_log_witness :
  let P := Fixture.platform [] in
  let cfg := Fixture.sampleConfig in
  let w := Fixture.world [] Fixture.webhookUp in
  os_Stat P (AuditLog cfg)
  = Some "stat /var/log/vault_audit.log: no such file or directory"
  /\ outcome (runAudit P cfg [Signal]) w
     = Some (Some ("audit log not accessible: "
                   ++ "stat /var/log/vault_audit.log: "
                   ++ "no such file or directory"))
  /\ notifications (events (runAudit P cfg [Signal]) w)
     = [activeNotice (WebhookURL cfg)].
Proof.
  intros P cfg w.
  assert (H : os_Stat P (AuditLog cfg)
              = Some "stat /var/log/vault_audit.log: no such file or directory")
    by (vm_compute; reflexivity).
  split; [exact H|].
  destruct (monitor_notifies_before_checking_log P cfg [Signal] w _ H)
    as (O & N & _).
  exact (conj O N).
Defined.


Lemma legacy_unlock_sends_every_key_witness :
  let P := Fixture.platform [] in
  let cfg := Fixture.sampleConfig in
  let w := Fixture.world Fixture.unsealsAtSecondKey Fixture.webhookUp in
  requests (events (Legacy.runUnlock P Fixture.unmarshalLegacy cfg) w)
  = healthRequest cfg
    :: map (fun key =>
              unsealRequest cfg
                match json_Marshal_key P key with
                | Ok reqBody => reqBody
                | Err _ => EmptyString
                end) ["key-one"; "key-two"; "key-three"]
  /\ notifications
       (events (Legacy.runUnlock P Fixture.unmarshalLegacy cfg) w) = [].
Proof.
  intros P cfg w.
  assert (H1 : url_Parse P (Address cfg ++ "/v1/sys/health") = None)
    by (vm_compute; reflexivity).
  assert (H2 : client_Do P (healthRequest cfg) (vault w)
               = (Ok {| StatusCode := 503;
                        ReadAll := (Fixture.statusBody true 0 2, None) |},
                  [Fixture.answer 200 (Fixture.statusBody true 1 2);
                   Fixture.answer 200 (Fixture.statusBody false 0 2)]))
    by reflexivity.
  assert (H3 : Legacy.Sealed
                 (Fixture.unmarshalLegacy
                    (fst (ReadAll {| StatusCode := 503;
                                     ReadAll := (Fixture.statusBody true 0 2,
                                                 None) |}))) = true)
    by (vm_compute; reflexivity).
  assert (H4 : url_Parse P (Address cfg ++ "/v1/sys/unseal") = None)
    by (vm_compute; reflexivity).
  destruct (legacy_unlock_sends_every_key P Fixture.unmarshalLegacy cfg w
              _ _ H1 H2 H3 H4) as (_ & R & N & _).
  exact (conj R N).
Defined.

Lemma legacy_unlock_exits_zero_witness :
  let P := Fixture.platform Fixture.filesNoAddress in
  let w := Fixture.world Fixture.unreachable Fixture.webhookUp in
  outcome (Legacy.main P Fixture.unmarshalLegacy Fixture.configPath
             ["unlock"] []) w = Some 0
  /\ outcome (main P Fixture.configPath ["unlock"] []) w = Some 1.
Proof.
  intros P w.
  assert (H1 : os_Open P Fixture.configPath
               = Ok (Fixture.configFile EmptyString ["key-one"]
                       "https://discord.example/api/webhooks/1"
                       "/var/log/vault_audit.log"))
    by reflexivity.
  assert (H2 : yaml_Decode P
                 (Fixture.configFile EmptyString ["key-one"]
                    "https://discord.example/api/webhooks/1"
                    "/var/log/vault_audit.log")
               = Ok {| Address := EmptyString; UnsealKeys := ["key-one"];
                       WebhookURL := "https://discord.example/api/webhooks/1";
                       AuditLog := "/var/log/vault_audit.log" |})
    by (vm_compute; reflexivity).
  split.
  - apply (legacy_unlock_exits_zero P Fixture.unmarshalLegacy _ _ _ [] [] w
             H1 H2).
    vm_compute. reflexivity.
  - vm_compute. reflexivity.
Defined.

Lemma config_error_is_fatal_witness :
  let P := Fixture.platform [] in
  let w := Fixture.world Fixture.unsealsAtSecondKey Fixture.webhookUp in
  readConfig P Fixture.configPath
  = Err ("open config: open /etc/vault-warden.yaml: "
         ++ "no such file or directory")
  /\ outcome (main P Fixture.configPath ["reseal"] []) w = Some 1
  /\ events (main P Fixture.configPath ["reseal"] []) w
     = [Stdout ("❌ Config error: open config: open /etc/vault-warden.yaml: "
                ++ "no such file or directory" ++ nl)].
Proof.
  intros P w.
  assert (H : readConfig P Fixture.configPath
              = Err ("open config: open /etc/vault-warden.yaml: "
                     ++ "no such file or directory"))
    by (vm_compute; reflexivity).
  split; [exact H|].
  pose proof (proj1 (config_error_is_fatal P Fixture.configPath _ "reseal"
                       [] [] w H)) as E.
  unfold outcome, events. rewrite E. cbn [fst snd trace].
  rewrite skipn_app, skipn_all, Nat.sub_diag. split; reflexivity.
Defined.
